(** * hass_proxy: the authorization decision of the proxy view

    A shallow embedding of [custom_components/hass_proxy/proxy.py]: the
    registry of dynamic proxied URLs, the two service handlers that create
    and delete its entries, and [HAProxyView._get_proxied_url], which decides
    whether a request may be proxied and under which SSL context.

    Python values are modelled as follows.
    - [int] is [Z]; the readings of [time.time()] are taken in [Z] as well.
    - [str] is [string]; a value that may be [None] is an [option].
    - [dict[str, DynamicProxiedURL]] is an association list in insertion
      order ([PyDict]); iteration order decides which rule wins.
    - A raised exception is the [Raised] outcome of an operation; every
      operation on the registry returns the registry it leaves behind.
    - [urlmatch.urlmatch] and [urllib.parse.unquote] live outside the
      repository: they are variables of the sections [Proxy] and
      [Decision], and every statement holds for any choice of them.
      The matcher may refuse a pattern by raising [BadMatchPattern], which
      the view does not catch: its answer is an [option bool], [None]
      standing for the raise.
    - [uuid.uuid4()] and [time.time()] are answered by the environment:
      the handlers take the generated string and the clock readings as
      arguments. *)

From Stdlib Require Import String Ascii List ZArith Bool Lia.
Import ListNotations.

Local Open Scope string_scope.
Local Open Scope list_scope.
Local Open Scope Z_scope.

(** ** Insertion-ordered dictionaries with [str] keys *)

Module PyDict.
Section WithValue.
Context {V : Type}.

Definition t : Type := list (string * V).

Definition empty : t := [].

(** [d.items()] and [d.keys()]: insertion order. *)
Definition items (d : t) : list (string * V) := d.
Definition keys (d : t) : list string := map fst d.

(** [d.get(k)] *)
Fixpoint get (k : string) (d : t) : option V :=
  match d with
  | [] => None
  | (k', v) :: d' => if String.eqb k' k then Some v else get k d'
  end.

(** [k in d] *)
Definition contains (k : string) (d : t) : bool :=
  match get k d with Some _ => true | None => false end.

(** [d[k] = v]: an existing key keeps its position, a new key goes last. *)
Fixpoint set (k : string) (v : V) (d : t) : t :=
  match d with
  | [] => [(k, v)]
  | (k', v') :: d' =>
      if String.eqb k' k then (k', v) :: d' else (k', v') :: set k v d'
  end.

(** [del d[k]] for a key that is present (absent keys are left to the
    caller, who checks membership first). *)
Fixpoint del (k : string) (d : t) : t :=
  match d with
  | [] => []
  | (k', v') :: d' =>
      if String.eqb k' k then d' else (k', v') :: del k d'
  end.

(** A list is a dictionary when no key occurs twice. *)
Definition wf (d : t) : Prop := NoDup (keys d).
End WithValue.
Arguments t : clear implicits.
End PyDict.

(** ** Constants of [const.py] *)

(** Modelled from the spec: [const.py] is not among the sources; the cipher
    profiles exposed at the boundary are [insecure], [modern],
    [intermediate] and [default]. *)
Definition CONF_SSL_CIPHERS_INSECURE : string := "insecure".
Definition CONF_SSL_CIPHERS_MODERN : string := "modern".
Definition CONF_SSL_CIPHERS_INTERMEDIATE : string := "intermediate".
Definition CONF_SSL_CIPHERS_DEFAULT : string := "default".

(** ** Data *)

(** Modelled from the spec: [data.py] is not among the sources.
    [DynamicProxiedURL] is the spec's dynamic rule without its id, with the
    field names [create_proxied_url] passes to its constructor; the view
    assigns to [open_limit], so the record is mutable. *)
Record DynamicProxiedURL : Type := mkDynamicProxiedURL {
  url_pattern : string;
  ssl_verification : bool;
  ssl_ciphers : option string;
  open_limit : Z;
  expiration : Z
}.

(** [proxied_url.open_limit = n] *)
Definition with_open_limit (n : Z) (p : DynamicProxiedURL) : DynamicProxiedURL :=
  {| url_pattern := url_pattern p;
     ssl_verification := ssl_verification p;
     ssl_ciphers := ssl_ciphers p;
     open_limit := n;
     expiration := expiration p |}.

Definition registry : Type := PyDict.t DynamicProxiedURL.

(** What [_proxy_ssl_cipher_to_ha_ssl_cipher] hands to Home Assistant:
    [SSLCipherList.PYTHON_DEFAULT], or the value it was given. *)
Inductive SSLCipherList : Type :=
| PYTHON_DEFAULT
| verbatim (ssl_ciphers : option string).

(** The contexts built by [homeassistant.util.ssl]; they are not inspected
    here, only which constructor was called and on which cipher list. *)
Inductive SSLContext : Type :=
| client_context (c : SSLCipherList)
| client_context_no_verify (c : SSLCipherList).

(** Modelled from the spec: [proxy_lib.py] is not among the sources.
    [ProxiedURL] is the authorized target: the URL and the SSL context
    the view passes to its constructor. *)
Record ProxiedURL : Type := mkProxiedURL {
  url : string;
  ssl_context : SSLContext
}.

(** The exceptions that leave this module: the two request errors of
    [proxy_lib], Home Assistant's [ServiceValidationError] with its
    translation key and the [url_id] placeholder, and
    [urlmatch.BadMatchPattern], which the matcher raises on a pattern it
    cannot parse and the view lets through. *)
Inductive exn : Type :=
| HASSProxyLibNotFoundRequestError
| HASSProxyLibExpiredError
| ServiceValidationError (translation_key : string) (url_id : string)
| BadMatchPattern.

Inductive outcome (A : Type) : Type :=
| Returned (a : A)
| Raised (e : exn).
Arguments Returned {A} a.
Arguments Raised {A} e.

(** [request.query]: a multi-dict, the first value of a key is the one
    subscripting returns. *)
Record Request : Type := mkRequest {
  query : list (string * string)
}.

Fixpoint query_get (k : string) (q : list (string * string)) : option string :=
  match q with
  | [] => None
  | (k', v) :: q' => if String.eqb k' k then Some v else query_get k q'
  end.

(** The config entry's options, as far as this module reads them: whether
    [dynamic_urls] is truthy, and the other keys with [None] for an absent
    one. *)
Record Options : Type := mkOptions {
  opt_dynamic_urls : bool;
  opt_url_patterns : option (list string);
  opt_ssl_ciphers : option string;
  opt_ssl_verification : option bool
}.

(** The data of a [create_proxied_url] call after the schema filled in the
    defaults. *)
Record CreateCall : Type := mkCreateCall {
  call_url_pattern : string;
  call_url_id : option string;
  call_ssl_verification : bool;
  call_ssl_ciphers : option string;
  call_open_limit : Z;
  call_time_to_live : Z
}.

(** [CREATE_PROXIED_URL_SCHEMA]: [cv.positive_int] accepts the integers
    from 0 on, [ssl_ciphers] is [None] or one of the four profiles. *)
Definition positive_int (n : Z) : bool := 0 <=? n.

Definition ssl_ciphers_allowed (c : option string) : bool :=
  match c with
  | None => true
  | Some s =>
      String.eqb s CONF_SSL_CIPHERS_INSECURE
      || String.eqb s CONF_SSL_CIPHERS_MODERN
      || String.eqb s CONF_SSL_CIPHERS_INTERMEDIATE
      || String.eqb s CONF_SSL_CIPHERS_DEFAULT
  end.

Definition CREATE_PROXIED_URL_SCHEMA (call : CreateCall) : bool :=
  ssl_ciphers_allowed (call_ssl_ciphers call)
  && positive_int (call_open_limit call)
  && positive_int (call_time_to_live call).

(** ** SSL contexts *)

Definition _proxy_ssl_cipher_to_ha_ssl_cipher (ssl_ciphers : option string)
  : SSLCipherList :=
  match ssl_ciphers with
  | Some s =>
      if String.eqb s CONF_SSL_CIPHERS_DEFAULT then PYTHON_DEFAULT
      else verbatim ssl_ciphers
  | None => verbatim ssl_ciphers
  end.

Definition _get_ssl_context_no_verify (ssl_cipher : option string) : SSLContext :=
  client_context_no_verify (_proxy_ssl_cipher_to_ha_ssl_cipher ssl_cipher).

Definition _get_ssl_context (ssl_ciphers : option string) : SSLContext :=
  client_context (_proxy_ssl_cipher_to_ha_ssl_cipher ssl_ciphers).

(** The conditional expression both [return ProxiedURL(...)] sites use:
    [_get_ssl_context(c) if v else _get_ssl_context_no_verify(c)]. *)
Definition ssl_context_for (verification : bool) (ciphers : option string)
  : SSLContext :=
  if verification then _get_ssl_context ciphers
  else _get_ssl_context_no_verify ciphers.

(** ** The service handlers *)

(** [create_proxied_url]: [uuid4] is the string [str(uuid.uuid4())] would
    give and [now] the reading of [time.time()]. An absent or empty
    [url_id] is falsy, so the generated id is used. *)
Definition create_url_id (uuid4 : string) (call : CreateCall) : string :=
  match call_url_id call with
  | Some s => if String.eqb s "" then uuid4 else s
  | None => uuid4
  end.

Definition create_proxied_url (uuid4 : string) (now : Z) (call : CreateCall)
    (dynamic_proxied_urls : registry) : registry :=
  let url_id := create_url_id uuid4 call in
  let ttl := call_time_to_live call in
  PyDict.set url_id
    {| url_pattern := call_url_pattern call;
       ssl_verification := call_ssl_verification call;
       ssl_ciphers := call_ssl_ciphers call;
       open_limit := call_open_limit call;
       expiration := if ttl =? 0 then 0 else now + ttl |}
    dynamic_proxied_urls.

(** [delete_proxied_url] *)
Definition delete_proxied_url (url_id : string)
    (dynamic_proxied_urls : registry) : outcome unit * registry :=
  if negb (PyDict.contains url_id dynamic_proxied_urls) then
    (Raised (ServiceValidationError "url_id_not_found" url_id),
     dynamic_proxied_urls)
  else
    (Returned tt, PyDict.del url_id dynamic_proxied_urls).

(** ** Events *)

(** What can happen to the registry of one config entry: a service call,
    or a request to the view. [uuid4], [now] and [time_time] are what the
    environment would answer: the string of a fresh [uuid.uuid4()] and the
    readings of [time.time()]. *)
Inductive event : Type :=
| CreateProxiedURL (call : CreateCall) (uuid4 : string) (now : Z)
| DeleteProxiedURL (url_id : string)
| GetProxiedURL (request : Request) (time_time : nat -> Z).

(** The call, if the event is one, asks for a limited number of uses. *)
Definition limited (ev : event) : Prop :=
  match ev with
  | CreateProxiedURL call _ _ => call_open_limit call <> 0
  | _ => True
  end.

(** ** Stand-ins used by the examples *)

(** A small wildcard matcher, used where an example needs a concrete
    matcher in place of [urlmatch]: ["*"] stands for any run of
    characters, every other character for itself. *)
Fixpoint wildcard (pattern url : string) : bool :=
  match pattern with
  | EmptyString =>
      match url with
      | EmptyString => true
      | String _ _ => false
      end
  | String c pattern' =>
      if Ascii.eqb c "*"%char then
        (fix star (u : string) : bool :=
           wildcard pattern' u
           || match u with
              | EmptyString => false
              | String _ u' => star u'
              end) url
      else
        match url with
        | EmptyString => false
        | String d url' => Ascii.eqb c d && wildcard pattern' url'
        end
  end.

(** The matcher of the examples: like [urlmatch], it refuses a pattern
    that does not start with [http://], [https://] or [*://]; a pattern it
    accepts is matched by [wildcard]. *)
Definition has_scheme (pattern : string) : bool :=
  String.prefix "http://" pattern
  || String.prefix "https://" pattern
  || String.prefix "*://" pattern.

Definition scheme_wildcard (pattern url : string) : option bool :=
  if has_scheme pattern then Some (wildcard pattern url) else None.

(** An example that needs no decoding takes the identity for [unquote]. *)
Definition plain (s : string) : string := s.

Module Demo.
(** A rule that lapsed at time 50, with uses left. *)
Definition lapsed : DynamicProxiedURL :=
  {| url_pattern := "https://example.com/*";
     ssl_verification := true;
     ssl_ciphers := Some "default";
     open_limit := 5;
     expiration := 50 |}.

(** A rule good for [n] more uses until time 500. *)
Definition good (n : Z) : DynamicProxiedURL :=
  {| url_pattern := "https://example.com/*";
     ssl_verification := false;
     ssl_ciphers := Some "modern";
     open_limit := n;
     expiration := 500 |}.

(** A rule for another host. *)
Definition other : DynamicProxiedURL :=
  {| url_pattern := "https://other.org/*";
     ssl_verification := true;
     ssl_ciphers := None;
     open_limit := 1;
     expiration := 0 |}.

Definition request : Request :=
  {| query := [("url", "https://example.com/foo?x=1")] |}.

Definition bare_request : Request :=
  {| query := [("token", "abc")] |}.

Definition options : Options :=
  {| opt_dynamic_urls := true;
     opt_url_patterns := Some ["https://static.net/*"; "https://example.com/*"];
     opt_ssl_ciphers := Some "intermediate";
     opt_ssl_verification := None |}.

Definition no_options : Options :=
  {| opt_dynamic_urls := false;
     opt_url_patterns := None;
     opt_ssl_ciphers := None;
     opt_ssl_verification := None |}.

(** A call that asks for an unlimited rule under the id ["cam"]. *)
Definition unlimited_call : CreateCall :=
  {| call_url_pattern := "https://example.com/*";
     call_url_id := Some "cam";
     call_ssl_verification := true;
     call_ssl_ciphers := Some "default";
     call_open_limit := 0;
     call_time_to_live := 60 |}.

(** A call without an id, for two uses. *)
Definition anonymous_call : CreateCall :=
  {| call_url_pattern := "https://other.org/*";
     call_url_id := None;
     call_ssl_verification := false;
     call_ssl_ciphers := Some "insecure";
     call_open_limit := 2;
     call_time_to_live := 0 |}.
(** Three rules: the lapsed one first, then a good one, then one for
    another host. *)
Definition rules : registry :=
  [("a", lapsed); ("b", good 2); ("c", other)].

(** A history that creates one limited rule and then uses it once. *)
Definition history : list event :=
  [CreateProxiedURL anonymous_call "7f3c" 1000;
   GetProxiedURL {| query := [("url", "https://other.org/cam")] |}
                 (fun _ => 1001)].

(** A history that creates one unlimited rule. *)
Definition unlimited_history : list event :=
  [CreateProxiedURL unlimited_call "7f3c" 1000].

(** A call whose pattern lacks the scheme; the schema takes any string. *)
Definition malformed_call : CreateCall :=
  {| call_url_pattern := "example.com/*";
     call_url_id := Some "bad";
     call_ssl_verification := true;
     call_ssl_ciphers := Some "default";
     call_open_limit := 1;
     call_time_to_live := 0 |}.

(** The rule that call stores. *)
Definition malformed : DynamicProxiedURL :=
  {| url_pattern := "example.com/*";
     ssl_verification := true;
     ssl_ciphers := Some "default";
     open_limit := 1;
     expiration := 0 |}.

(** A history that stores the malformed rule and then an unlimited rule
    for the same host. *)
Definition blocked_history : list event :=
  [CreateProxiedURL malformed_call "7f3c" 1000;
   CreateProxiedURL unlimited_call "7f3c" 1000].

(** Options that switch verification off. *)
Definition lax_options : Options :=
  {| opt_dynamic_urls := true;
     opt_url_patterns := Some ["https://static.net/*"; "https://example.com/*"];
     opt_ssl_ciphers := Some "intermediate";
     opt_ssl_verification := Some false |}.

(** A call for one use within 60 seconds, without verification. *)
Definition door_call : CreateCall :=
  {| call_url_pattern := "https://example.com/*";
     call_url_id := Some "door";
     call_ssl_verification := false;
     call_ssl_ciphers := Some "modern";
     call_open_limit := 1;
     call_time_to_live := 60 |}.
End Demo.

(** ** The view *)

Section Proxy.
(** [urlmatch.urlmatch(pattern, url, path_required=False)]: [Some b] when
    it returns [b], [None] when it raises [BadMatchPattern]. *)
Variable urlmatch : string -> string -> option bool.
(** [urllib.parse.unquote] *)
Variable unquote : string -> string.

(** How the loop over the dynamic rules ends: by [return], with the
    registry as the matching rule's bookkeeping left it, by running out
    of items, or by an exception of the matcher. *)
Inductive scan : Type :=
| Found (p : ProxiedURL) (proxied_urls : registry)
| Exhausted (has_expired_match : bool)
| Thrown (e : exn).

(** [proxied_url.expiration and proxied_url.expiration < time.time()].
    [time_time k] is the reading of the [k]-th call of [time.time()]
    made while the request is handled; the clock is only read when
    [expiration] is truthy. *)
Definition expiration_passed (time_time : nat -> Z) (calls : nat)
    (proxied_url : DynamicProxiedURL) : bool * nat :=
  if expiration proxied_url =? 0 then (false, calls)
  else (expiration proxied_url <? time_time calls, S calls).

(** The bookkeeping of an authorizing rule (lines 192-195): the rule
    object is updated in place, so the registry sees the new count, and
    the entry is deleted when the count reaches zero. *)
Definition use_rule (url_id : string) (proxied_url : DynamicProxiedURL)
    (proxied_urls : registry) : DynamicProxiedURL * registry :=
  if open_limit proxied_url =? 0 then (proxied_url, proxied_urls)
  else
    let proxied_url' := with_open_limit (open_limit proxied_url - 1) proxied_url in
    let proxied_urls' := PyDict.set url_id proxied_url' proxied_urls in
    if open_limit proxied_url' =? 0
    then (proxied_url', PyDict.del url_id proxied_urls')
    else (proxied_url', proxied_urls').

(** The [for] loop over [proxied_urls.items()]. The matcher is called on
    every item the loop reaches; when it raises, the loop is left with
    its exception. *)
Fixpoint dynamic_loop (time_time : nat -> Z) (url_to_proxy : string)
    (items : list (string * DynamicProxiedURL))
    (has_expired_match : bool) (calls : nat)
    (proxied_urls : registry) : scan :=
  match items with
  | [] => Exhausted has_expired_match
  | (url_id, proxied_url) :: rest =>
      match urlmatch (url_pattern proxied_url) url_to_proxy with
      | None => Thrown BadMatchPattern
      | Some true =>
          let (passed, calls') :=
            expiration_passed time_time calls proxied_url in
          if passed then
            dynamic_loop time_time url_to_proxy rest true calls' proxied_urls
          else
            let (proxied_url', proxied_urls') :=
              use_rule url_id proxied_url proxied_urls in
            Found
              {| url := url_to_proxy;
                 ssl_context :=
                   ssl_context_for (ssl_verification proxied_url')
                                   (ssl_ciphers proxied_url') |}
              proxied_urls'
      | Some false =>
          dynamic_loop time_time url_to_proxy rest has_expired_match calls
                       proxied_urls
      end
  end.

(** The [for] loop over the configured [url_patterns]: the answer of the
    first pattern that matches, [None] when the patterns run out, or the
    exception of the matcher. *)
Fixpoint static_loop (options : Options) (url_to_proxy : string)
    (url_patterns : list string) : outcome (option ProxiedURL) :=
  match url_patterns with
  | [] => Returned None
  | url_pattern :: rest =>
      match urlmatch url_pattern url_to_proxy with
      | None => Raised BadMatchPattern
      | Some true =>
          let ssl_cipher := opt_ssl_ciphers options in
          let ssl_verification :=
            match opt_ssl_verification options with
            | Some b => b
            | None => true
            end in
          Returned
            (Some {| url := url_to_proxy;
                     ssl_context :=
                       ssl_context_for ssl_verification ssl_cipher |})
      | Some false => static_loop options url_to_proxy rest
      end
  end.

Definition url_patterns_of (options : Options) : list string :=
  match opt_url_patterns options with
  | Some l => l
  | None => []
  end.

(** [HAProxyView._get_proxied_url] *)
Definition _get_proxied_url (time_time : nat -> Z) (options : Options)
    (request : Request) (proxied_urls : registry)
  : outcome ProxiedURL * registry :=
  match query_get "url" (query request) with
  | None => (Raised HASSProxyLibNotFoundRequestError, proxied_urls)
  | Some q =>
      let url_to_proxy := unquote q in
      match dynamic_loop time_time url_to_proxy (PyDict.items proxied_urls)
                         false 0%nat proxied_urls with
      | Found p proxied_urls' => (Returned p, proxied_urls')
      | Thrown e => (Raised e, proxied_urls)
      | Exhausted has_expired_match =>
          match static_loop options url_to_proxy (url_patterns_of options) with
          | Raised e => (Raised e, proxied_urls)
          | Returned (Some p) => (Returned p, proxied_urls)
          | Returned None =>
              if has_expired_match
              then (Raised HASSProxyLibExpiredError, proxied_urls)
              else (Raised HASSProxyLibNotFoundRequestError, proxied_urls)
          end
      end
  end.

(** ** The registry over time *)

(** The two services are registered only when the options enable
    [dynamic_urls], and Home Assistant runs a handler only on data its
    schema accepts; a call that is not served changes nothing. *)
Definition handle (options : Options) (proxied_urls : registry) (ev : event)
  : registry :=
  match ev with
  | CreateProxiedURL call uuid4 now =>
      if opt_dynamic_urls options && CREATE_PROXIED_URL_SCHEMA call
      then create_proxied_url uuid4 now call proxied_urls
      else proxied_urls
  | DeleteProxiedURL url_id =>
      if opt_dynamic_urls options
      then snd (delete_proxied_url url_id proxied_urls)
      else proxied_urls
  | GetProxiedURL request time_time =>
      snd (_get_proxied_url time_time options request proxied_urls)
  end.

(** [async_setup_entry] starts from [dynamic_proxied_urls={}]. *)
Definition run (options : Options) (history : list event) : registry :=
  fold_left (handle options) history PyDict.empty.

(** ** Vocabulary of the statements *)

(** A clock that stands still while one request is handled. *)
Definition steady (now : Z) : nat -> Z := fun _ => now.

(** The matcher answers [b] for the pattern and the URL, without raising. *)
Definition says (b : bool) (pattern url_to_proxy : string) : bool :=
  match urlmatch pattern url_to_proxy with
  | Some b' => Bool.eqb b b'
  | None => false
  end.

(** The matcher says the rule's pattern matches the URL. *)
Definition matches (url_to_proxy : string) (r : DynamicProxiedURL) : bool :=
  says true (url_pattern r) url_to_proxy.

(** The matcher says the rule's pattern does not match the URL. *)
Definition rejects (url_to_proxy : string) (r : DynamicProxiedURL) : bool :=
  says false (url_pattern r) url_to_proxy.

(** [expiration != 0] and [expiration < now]. *)
Definition is_expired (now : Z) (r : DynamicProxiedURL) : bool :=
  negb (expiration r =? 0) && (expiration r <? now).

(** A matching rule that has not expired. *)
Definition authorizes (now : Z) (url_to_proxy : string) (r : DynamicProxiedURL)
  : bool :=
  matches url_to_proxy r && negb (is_expired now r).

(** A matching rule that has expired. *)
Definition expired_match (now : Z) (url_to_proxy : string)
    (r : DynamicProxiedURL) : bool :=
  matches url_to_proxy r && is_expired now r.

(** A rule the scan goes past: its pattern does not match, or it matches
    and the rule has expired. With a matcher that never raises, these are
    the rules that do not authorize. *)
Definition passes (now : Z) (url_to_proxy : string) (r : DynamicProxiedURL)
  : bool :=
  rejects url_to_proxy r || expired_match now url_to_proxy r.

Definition any_rule (f : DynamicProxiedURL -> bool) (proxied_urls : registry)
  : bool :=
  existsb (fun kv => f (snd kv)) proxied_urls.

Definition every_rule (f : DynamicProxiedURL -> bool) (proxied_urls : registry)
  : bool :=
  forallb (fun kv => f (snd kv)) proxied_urls.

(** Some configured pattern matches the URL. *)
Definition any_static (url_to_proxy : string) (url_patterns : list string)
  : bool :=
  existsb (fun p => says true p url_to_proxy) url_patterns.

(** The matcher says of every configured pattern that it does not match. *)
Definition no_static (url_to_proxy : string) (url_patterns : list string)
  : bool :=
  forallb (fun p => says false p url_to_proxy) url_patterns.

(** The SSL context the config entry's options ask for. *)
Definition options_context (options : Options) : SSLContext :=
  ssl_context_for
    (match opt_ssl_verification options with Some b => b | None => true end)
    (opt_ssl_ciphers options).

(** The same request, [n] times in a row. *)
Fixpoint replay (now : Z) (options : Options) (request : Request) (n : nat)
    (proxied_urls : registry) : list (outcome ProxiedURL) * registry :=
  match n with
  | O => ([], proxied_urls)
  | S n' =>
      let (o, proxied_urls') :=
        _get_proxied_url (steady now) options request proxied_urls in
      let (os, proxied_urls'') := replay now options request n' proxied_urls' in
      (o :: os, proxied_urls'')
  end.

End Proxy.

(** ** Facts about dictionaries *)

Lemma dict_contains_In {V : Type} (k : string) (d : PyDict.t V) :
  PyDict.contains k d = true <-> In k (PyDict.keys d).
Proof.
  unfold PyDict.contains.
  induction d as [|[k' v] d IH]; simpl.
  - split; [discriminate | tauto].
  - destruct (String.eqb_spec k' k) as [->|Hne].
    + split; auto.
    + rewrite IH. split; [auto | intros [E|H]; [contradiction | exact H]].
Qed.

Lemma dict_get_None {V : Type} (k : string) (d : PyDict.t V) :
  PyDict.get k d = None <-> ~ In k (PyDict.keys d).
Proof.
  rewrite <- dict_contains_In. unfold PyDict.contains.
  destruct (PyDict.get k d); split; intro H; auto; try discriminate.
  exfalso; apply H; reflexivity.
Qed.

Lemma dict_get_In {V : Type} (k : string) (v : V) (d : PyDict.t V) :
  PyDict.wf d -> (PyDict.get k d = Some v <-> In (k, v) d).
Proof.
  unfold PyDict.wf.
  induction d as [|[k' v'] d IH]; simpl; intro Hwf.
  - split; [discriminate | tauto].
  - inversion Hwf as [|? ? Hnotin Hwf']; subst.
    destruct (String.eqb_spec k' k) as [->|Hne].
    + split.
      * intros [= ->]. now left.
      * intros [[= ->]|Hin]; [reflexivity|].
        exfalso. apply Hnotin. change k with (fst (k, v)). now apply in_map.
    + rewrite (IH Hwf'). split; [auto|].
      intros [[= -> ->]|Hin]; [contradiction | exact Hin].
Qed.

Lemma dict_get_set_eq {V : Type} (k : string) (v : V) (d : PyDict.t V) :
  PyDict.get k (PyDict.set k v d) = Some v.
Proof.
  induction d as [|[k' v'] d IH]; simpl.
  - now rewrite String.eqb_refl.
  - destruct (String.eqb_spec k' k) as [->|Hne]; simpl.
    + now rewrite String.eqb_refl.
    + destruct (String.eqb_spec k' k); [contradiction | exact IH].
Qed.

Lemma dict_get_set_ne {V : Type} (k k' : string) (v : V) (d : PyDict.t V) :
  k' <> k -> PyDict.get k' (PyDict.set k v d) = PyDict.get k' d.
Proof.
  intro Hne.
  induction d as [|[k0 v0] d IH]; simpl.
  - destruct (String.eqb_spec k k'); [congruence | reflexivity].
  - destruct (String.eqb_spec k0 k) as [->|Hk]; simpl.
    + destruct (String.eqb_spec k k'); [congruence | reflexivity].
    + destruct (String.eqb_spec k0 k'); [reflexivity | exact IH].
Qed.

Lemma dict_keys_set_In {V : Type} (k : string) (v : V) (d : PyDict.t V) :
  In k (PyDict.keys d) -> PyDict.keys (PyDict.set k v d) = PyDict.keys d.
Proof.
  induction d as [|[k' v'] d IH]; simpl; [tauto|].
  intros Hin.
  destruct (String.eqb_spec k' k) as [->|Hne]; simpl; [reflexivity|].
  f_equal. apply IH. destruct Hin; [contradiction | assumption].
Qed.

Lemma dict_set_fresh {V : Type} (k : string) (v : V) (d : PyDict.t V) :
  ~ In k (PyDict.keys d) -> PyDict.set k v d = d ++ [(k, v)].
Proof.
  induction d as [|[k' v'] d IH]; simpl; [reflexivity|].
  intros Hnotin.
  destruct (String.eqb_spec k' k) as [->|Hne]; [tauto|].
  f_equal. apply IH. tauto.
Qed.

Lemma dict_set_mid {V : Type} (k : string) (v v' : V) (pre post : PyDict.t V) :
  ~ In k (PyDict.keys pre) ->
  PyDict.set k v' (pre ++ (k, v) :: post) = pre ++ (k, v') :: post.
Proof.
  induction pre as [|[k0 v0] pre IH]; simpl; intro Hnotin.
  - now rewrite String.eqb_refl.
  - destruct (String.eqb_spec k0 k) as [->|Hne]; [tauto|].
    f_equal. apply IH. tauto.
Qed.

Lemma dict_del_mid {V : Type} (k : string) (v : V) (pre post : PyDict.t V) :
  ~ In k (PyDict.keys pre) ->
  PyDict.del k (pre ++ (k, v) :: post) = pre ++ post.
Proof.
  induction pre as [|[k0 v0] pre IH]; simpl; intro Hnotin.
  - now rewrite String.eqb_refl.
  - destruct (String.eqb_spec k0 k) as [->|Hne]; [tauto|].
    f_equal. apply IH. tauto.
Qed.

Lemma dict_wf_set {V : Type} (k : string) (v : V) (d : PyDict.t V) :
  PyDict.wf d -> PyDict.wf (PyDict.set k v d).
Proof.
  unfold PyDict.wf. intro Hwf.
  destruct (in_dec string_dec k (PyDict.keys d)) as [Hin|Hnotin].
  - now rewrite dict_keys_set_In.
  - rewrite dict_set_fresh by assumption.
    unfold PyDict.keys in *. rewrite map_app. simpl.
    apply NoDup_app; [assumption | repeat constructor; simpl; tauto |].
    intros x Hx [<-|[]]. contradiction.
Qed.

Lemma dict_del_filter {V : Type} (k : string) (d : PyDict.t V) :
  PyDict.wf d ->
  PyDict.del k d = filter (fun kv => negb (String.eqb (fst kv) k)) d.
Proof.
  unfold PyDict.wf.
  induction d as [|[k' v'] d IH]; simpl; intro Hwf; [reflexivity|].
  inversion Hwf as [|? ? Hnotin Hwf']; subst.
  destruct (String.eqb_spec k' k) as [->|Hne]; simpl.
  - symmetry. apply forallb_filter_id. apply forallb_forall.
    intros [k0 v0] Hin. simpl.
    destruct (String.eqb_spec k0 k) as [->|]; [|reflexivity].
    exfalso. apply Hnotin. change k with (fst (k, v0)). now apply in_map.
  - f_equal. now apply IH.
Qed.

Lemma dict_get_del_ne {V : Type} (k k' : string) (d : PyDict.t V) :
  k' <> k -> PyDict.get k' (PyDict.del k d) = PyDict.get k' d.
Proof.
  intro Hne.
  induction d as [|[k0 v0] d IH]; simpl; [reflexivity|].
  destruct (String.eqb_spec k0 k) as [->|Hk]; simpl.
  - destruct (String.eqb_spec k k'); [congruence | reflexivity].
  - destruct (String.eqb_spec k0 k'); [reflexivity | exact IH].
Qed.

Lemma dict_keys_del_incl {V : Type} (k x : string) (d : PyDict.t V) :
  In x (PyDict.keys (PyDict.del k d)) -> In x (PyDict.keys d).
Proof.
  induction d as [|[k0 v0] d IH]; simpl; [tauto|].
  destruct (String.eqb_spec k0 k) as [->|Hk]; simpl; [auto|].
  intros [E|Hin]; [left; exact E | right; now apply IH].
Qed.

Lemma dict_wf_del {V : Type} (k : string) (d : PyDict.t V) :
  PyDict.wf d -> PyDict.wf (PyDict.del k d).
Proof.
  unfold PyDict.wf.
  induction d as [|[k0 v0] d IH]; simpl; intro Hwf; [constructor|].
  inversion Hwf as [|? ? Hnotin Hwf']; subst.
  destruct (String.eqb_spec k0 k) as [->|Hk]; simpl; [assumption|].
  constructor; [|now apply IH].
  intro Hin. apply Hnotin. eapply dict_keys_del_incl. exact Hin.
Qed.

Lemma dict_get_del_eq {V : Type} (k : string) (d : PyDict.t V) :
  PyDict.wf d -> PyDict.get k (PyDict.del k d) = None.
Proof.
  unfold PyDict.wf.
  induction d as [|[k0 v0] d IH]; simpl; intro Hwf; [reflexivity|].
  inversion Hwf as [|? ? Hnotin Hwf']; subst.
  destruct (String.eqb_spec k0 k) as [->|Hk]; simpl.
  - now apply dict_get_None.
  - destruct (String.eqb_spec k0 k); [contradiction | now apply IH].
Qed.

Lemma dict_wf_mid {V : Type} (k : string) (v : V) (pre post : PyDict.t V) :
  PyDict.wf (pre ++ (k, v) :: post) ->
  ~ In k (PyDict.keys pre) /\ ~ In k (PyDict.keys post).
Proof.
  unfold PyDict.wf, PyDict.keys. rewrite map_app. simpl. intro Hwf.
  apply NoDup_remove_2 in Hwf. rewrite in_app_iff in Hwf. tauto.
Qed.

Lemma dict_get_mid {V : Type} (k : string) (v : V) (pre post : PyDict.t V) :
  ~ In k (PyDict.keys pre) -> PyDict.get k (pre ++ (k, v) :: post) = Some v.
Proof.
  induction pre as [|[k0 v0] pre IH]; simpl; intro Hnotin.
  - now rewrite String.eqb_refl.
  - destruct (String.eqb_spec k0 k) as [->|Hne]; [tauto|].
    apply IH. tauto.
Qed.

Lemma dict_keys_app {V : Type} (d1 d2 : PyDict.t V) :
  PyDict.keys (d1 ++ d2) = PyDict.keys d1 ++ PyDict.keys d2.
Proof. unfold PyDict.keys. apply map_app. Qed.

Lemma dict_In_set {V : Type} (k : string) (v : V) (d : PyDict.t V)
    (x : string * V) :
  In x (PyDict.set k v d) -> x = (k, v) \/ In x d.
Proof.
  induction d as [|[k0 v0] d IH]; simpl.
  - intros [<-|[]]. now left.
  - destruct (String.eqb_spec k0 k) as [->|Hne]; simpl.
    + intros [<-|Hin]; auto.
    + intros [<-|Hin]; auto. destruct (IH Hin); auto.
Qed.

Lemma dict_In_del {V : Type} (k : string) (d : PyDict.t V) (x : string * V) :
  In x (PyDict.del k d) -> In x d.
Proof.
  induction d as [|[k0 v0] d IH]; simpl; [tauto|].
  destruct (String.eqb_spec k0 k) as [->|Hne]; simpl; [auto|].
  intros [<-|Hin]; auto.
Qed.

Lemma dict_del_set {V : Type} (k : string) (v : V) (d : PyDict.t V) :
  PyDict.del k (PyDict.set k v d) = PyDict.del k d.
Proof.
  induction d as [|[k0 v0] d IH]; simpl.
  - now rewrite String.eqb_refl.
  - destruct (String.eqb k0 k) eqn:E; simpl; rewrite E; [reflexivity|].
    now rewrite IH.
Qed.

Lemma dict_get_Some_In {V : Type} (k : string) (v : V) (d : PyDict.t V) :
  PyDict.get k d = Some v -> In (k, v) d.
Proof.
  induction d as [|[k0 v0] d IH]; simpl; [discriminate|].
  destruct (String.eqb_spec k0 k) as [->|Hne].
  - intros [= ->]. now left.
  - intro H. right. now apply IH.
Qed.

(** ** Facts about rules *)

Lemma expiration_passed_steady (now : Z) (calls : nat) (r : DynamicProxiedURL) :
  fst (expiration_passed (steady now) calls r) = is_expired now r.
Proof.
  unfold expiration_passed, is_expired, steady.
  destruct (expiration r =? 0); reflexivity.
Qed.

Lemma use_rule_keeps_ssl (k : string) (r : DynamicProxiedURL) (reg : registry) :
  ssl_verification (fst (use_rule k r reg)) = ssl_verification r
  /\ ssl_ciphers (fst (use_rule k r reg)) = ssl_ciphers r.
Proof.
  unfold use_rule.
  destruct (open_limit r =? 0); simpl; [tauto|].
  destruct (open_limit r - 1 =? 0); simpl; tauto.
Qed.

(** What using a rule does to the registry that holds it. *)
Lemma use_rule_registry (k : string) (r : DynamicProxiedURL)
    (pre post : registry) :
  ~ In k (PyDict.keys pre) ->
  snd (use_rule k r (pre ++ (k, r) :: post))
  = if open_limit r =? 0 then pre ++ (k, r) :: post
    else if open_limit r - 1 =? 0 then pre ++ post
    else pre ++ (k, with_open_limit (open_limit r - 1) r) :: post.
Proof.
  intro Hnotin. unfold use_rule.
  destruct (open_limit r =? 0); [reflexivity|].
  rewrite dict_set_mid by assumption. simpl.
  destruct (open_limit r - 1 =? 0); simpl; [|reflexivity].
  now apply dict_del_mid.
Qed.

(** Using a rule touches no entry but its own. *)
Lemma use_rule_others (k k' : string) (r : DynamicProxiedURL) (reg : registry) :
  k' <> k ->
  PyDict.get k' (snd (use_rule k r reg)) = PyDict.get k' reg.
Proof.
  intro Hne. unfold use_rule.
  destruct (open_limit r =? 0); [reflexivity|].
  simpl. destruct (open_limit r - 1 =? 0); simpl.
  - now rewrite dict_get_del_ne, dict_get_set_ne.
  - now rewrite dict_get_set_ne.
Qed.

(** An entry found after a rule was used was there before, or is the used
    rule with one use less and some uses left. *)
Lemma use_rule_In (k : string) (r : DynamicProxiedURL) (reg : registry)
    (x : string * DynamicProxiedURL) :
  In x (snd (use_rule k r reg)) ->
  In x reg
  \/ (x = (k, with_open_limit (open_limit r - 1) r)
      /\ open_limit r <> 0 /\ open_limit r - 1 <> 0).
Proof.
  unfold use_rule.
  destruct (Z.eqb_spec (open_limit r) 0) as [|Hnz]; simpl; [auto|].
  destruct (Z.eqb_spec (open_limit r - 1) 0) as [Hz|Hnz']; simpl.
  - rewrite dict_del_set. intro Hin. left. eapply dict_In_del. exact Hin.
  - intro Hin. apply dict_In_set in Hin as [->|Hin]; auto.
Qed.

Lemma use_rule_wf (k : string) (r : DynamicProxiedURL) (reg : registry) :
  PyDict.wf reg -> PyDict.wf (snd (use_rule k r reg)).
Proof.
  intro Hwf. unfold use_rule.
  destruct (open_limit r =? 0); simpl; [assumption|].
  destruct (open_limit r - 1 =? 0); simpl.
  - now apply dict_wf_del, dict_wf_set.
  - now apply dict_wf_set.
Qed.

(** The first rule that satisfies [f] splits the registry in three. *)
Lemma first_rule (f : DynamicProxiedURL -> bool) (reg : registry) :
  any_rule f reg = true ->
  exists pre k r post,
    reg = pre ++ (k, r) :: post /\ any_rule f pre = false /\ f r = true.
Proof.
  unfold any_rule.
  induction reg as [|[k r] reg IH]; simpl; [discriminate|].
  destruct (f r) eqn:Hf; simpl.
  - intros _. exists [], k, r, reg. auto.
  - intro Hex. destruct (IH Hex) as (pre & k' & r' & post & -> & Hpre & Hr').
    exists ((k, r) :: pre), k', r', post. simpl. rewrite Hf. auto.
Qed.

Lemma any_rule_In (f : DynamicProxiedURL -> bool) (k : string)
    (r : DynamicProxiedURL) (reg : registry) :
  In (k, r) reg -> f r = true -> any_rule f reg = true.
Proof.
  intros Hin Hf. unfold any_rule. apply existsb_exists.
  exists (k, r). auto.
Qed.

Lemma any_rule_filter (f : DynamicProxiedURL -> bool)
    (g : string * DynamicProxiedURL -> bool) (reg : registry) :
  any_rule f reg = false -> any_rule f (filter g reg) = false.
Proof.
  unfold any_rule.
  induction reg as [|kv reg IH]; simpl; [reflexivity|].
  intro H. apply orb_false_iff in H as [Hkv Hreg].
  destruct (g kv); simpl; [rewrite Hkv|]; now apply IH.
Qed.

Lemma any_rule_weaken (f g : DynamicProxiedURL -> bool) (reg : registry) :
  (forall r, g r = true -> f r = true) ->
  any_rule f reg = false -> any_rule g reg = false.
Proof.
  intros Hfg. unfold any_rule.
  induction reg as [|[k r] reg IH]; simpl; [reflexivity|].
  intro H. apply orb_false_iff in H as [Hr Hreg].
  rewrite (IH Hreg), orb_false_r.
  destruct (g r) eqn:Hg; [|reflexivity].
  rewrite (Hfg r Hg) in Hr. discriminate.
Qed.

Lemma any_rule_app (f : DynamicProxiedURL -> bool) (reg1 reg2 : registry) :
  any_rule f (reg1 ++ reg2) = any_rule f reg1 || any_rule f reg2.
Proof. unfold any_rule. apply existsb_app. Qed.

(** The first element a test fails on splits a list in three. *)
Lemma forallb_first_false {A : Type} (f : A -> bool) (l : list A) :
  forallb f l = false ->
  exists pre x post,
    l = pre ++ x :: post /\ forallb f pre = true /\ f x = false.
Proof.
  induction l as [|x l IH]; simpl; [discriminate|].
  destruct (f x) eqn:Hf; simpl.
  - intro H. destruct (IH H) as (pre & y & post & -> & Hpre & Hy).
    exists (x :: pre), y, post. simpl. rewrite Hf. auto.
  - intros _. exists [], x, l. auto.
Qed.

Lemma every_rule_app (f : DynamicProxiedURL -> bool) (reg1 reg2 : registry) :
  every_rule f (reg1 ++ reg2) = every_rule f reg1 && every_rule f reg2.
Proof. unfold every_rule. apply forallb_app. Qed.

Lemma every_rule_filter (f : DynamicProxiedURL -> bool)
    (g : string * DynamicProxiedURL -> bool) (reg : registry) :
  every_rule f reg = true -> every_rule f (filter g reg) = true.
Proof.
  unfold every_rule.
  induction reg as [|kv reg IH]; simpl; [reflexivity|].
  intro H. apply andb_true_iff in H as [Hkv Hreg].
  destruct (g kv); simpl; [rewrite Hkv|]; now apply IH.
Qed.

Lemma every_rule_weaken (f g : DynamicProxiedURL -> bool) (reg : registry) :
  (forall r, f r = true -> g r = true) ->
  every_rule f reg = true -> every_rule g reg = true.
Proof.
  intros Hfg. unfold every_rule.
  induction reg as [|[k r] reg IH]; simpl; [reflexivity|].
  intro H. apply andb_true_iff in H as [Hr Hreg].
  now rewrite (Hfg r Hr), (IH Hreg).
Qed.

Lemma every_rule_In (f : DynamicProxiedURL -> bool) (k : string)
    (r : DynamicProxiedURL) (reg : registry) :
  every_rule f reg = true -> In (k, r) reg -> f r = true.
Proof.
  unfold every_rule. intros Hall Hin.
  rewrite forallb_forall in Hall. exact (Hall (k, r) Hin).
Qed.

(** No rule satisfies a test that excludes one every rule satisfies. *)
Lemma every_rule_excludes (f g : DynamicProxiedURL -> bool) (reg : registry) :
  (forall r, f r = true -> g r = false) ->
  every_rule f reg = true -> any_rule g reg = false.
Proof.
  intros Hfg. unfold every_rule, any_rule.
  induction reg as [|[k r] reg IH]; simpl; [reflexivity|].
  intro H. apply andb_true_iff in H as [Hr Hreg].
  now rewrite (Hfg r Hr), (IH Hreg).
Qed.

(** ** SSL contexts *)

(** C10. The cipher profile [default] becomes Python's default cipher
    list and every other value, [insecure], [modern] and [intermediate]
    among them, is handed on as it is; with verification the context is
    [client_context] of the resulting cipher list and without it
    [client_context_no_verify] of the same list. *)
Theorem ssl_context_resolution (ciphers : option string) :
  _proxy_ssl_cipher_to_ha_ssl_cipher (Some CONF_SSL_CIPHERS_DEFAULT)
  = PYTHON_DEFAULT
  /\ (ciphers <> Some CONF_SSL_CIPHERS_DEFAULT ->
      _proxy_ssl_cipher_to_ha_ssl_cipher ciphers = verbatim ciphers)
  /\ _proxy_ssl_cipher_to_ha_ssl_cipher (Some CONF_SSL_CIPHERS_INSECURE)
     = verbatim (Some CONF_SSL_CIPHERS_INSECURE)
  /\ _proxy_ssl_cipher_to_ha_ssl_cipher (Some CONF_SSL_CIPHERS_MODERN)
     = verbatim (Some CONF_SSL_CIPHERS_MODERN)
  /\ _proxy_ssl_cipher_to_ha_ssl_cipher (Some CONF_SSL_CIPHERS_INTERMEDIATE)
     = verbatim (Some CONF_SSL_CIPHERS_INTERMEDIATE)
  /\ ssl_context_for true ciphers
     = client_context (_proxy_ssl_cipher_to_ha_ssl_cipher ciphers)
  /\ ssl_context_for false ciphers
     = client_context_no_verify (_proxy_ssl_cipher_to_ha_ssl_cipher ciphers).
Proof.
  repeat split.
  intro Hother. unfold _proxy_ssl_cipher_to_ha_ssl_cipher.
  destruct ciphers as [s|]; [|reflexivity].
  destruct (String.eqb_spec s CONF_SSL_CIPHERS_DEFAULT) as [->|_];
    [contradiction | reflexivity].
Qed.

(** ** Creating a proxied URL *)

(** C5. [create_proxied_url] stores under the chosen id an entry with the
    pattern, SSL settings and open limit of the call, whose expiration is
    [now + time_to_live] when [time_to_live > 0] and [0] when it is [0].
    Without a [url_id] the id is the generated one, and a generated id
    that is not yet a key adds the entry at the end. A [url_id] that is
    supplied is the id; when it is already a key the entry under it is
    replaced where it stands, so the keys are the same as before and the
    key occurs exactly once. No other entry changes. *)
Theorem create_proxied_url_entry (uuid4 : string) (now : Z) (call : CreateCall)
    (reg : registry) (Hwf : PyDict.wf reg) :
  let url_id := create_url_id uuid4 call in
  let ttl := call_time_to_live call in
  let reg' := create_proxied_url uuid4 now call reg in
  (exists r,
      PyDict.get url_id reg' = Some r
      /\ url_pattern r = call_url_pattern call
      /\ ssl_verification r = call_ssl_verification call
      /\ ssl_ciphers r = call_ssl_ciphers call
      /\ open_limit r = call_open_limit call
      /\ (0 < ttl -> expiration r = now + ttl)
      /\ (ttl = 0 -> expiration r = 0)
      /\ (~ In url_id (PyDict.keys reg) -> reg' = reg ++ [(url_id, r)]))
  /\ (call_url_id call = None -> url_id = uuid4)
  /\ (forall k, call_url_id call = Some k -> k <> "" ->
        url_id = k
        /\ (In k (PyDict.keys reg) ->
            PyDict.keys reg' = PyDict.keys reg
            /\ count_occ string_dec (PyDict.keys reg') k = 1%nat))
  /\ (forall k', k' <> url_id -> PyDict.get k' reg' = PyDict.get k' reg)
  /\ PyDict.wf reg'.
Proof.
  intros url_id ttl reg'. subst reg'. unfold create_proxied_url.
  fold url_id ttl.
  set (entry := {| url_pattern := call_url_pattern call;
                   ssl_verification := call_ssl_verification call;
                   ssl_ciphers := call_ssl_ciphers call;
                   open_limit := call_open_limit call;
                   expiration := if ttl =? 0 then 0 else now + ttl |}).
  split; [|split; [|split; [|split]]].
  - exists entry. rewrite dict_get_set_eq. simpl.
    repeat (split; [reflexivity|]).
    split; [|split].
    + intro Hpos. destruct (Z.eqb_spec ttl 0); [lia | reflexivity].
    + intros ->. reflexivity.
    + apply dict_set_fresh.
  - unfold url_id, create_url_id. now intros ->.
  - intros k Hk Hne.
    assert (Hid : url_id = k).
    { unfold url_id, create_url_id. rewrite Hk.
      destruct (String.eqb_spec k ""); [contradiction | reflexivity]. }
    split; [exact Hid|]. rewrite Hid. intro Hin.
    pose proof (dict_keys_set_In k entry reg Hin) as Hkeys.
    split; [exact Hkeys|].
    rewrite Hkeys. now apply NoDup_count_occ'.
  - intros k' Hne. now apply dict_get_set_ne.
  - now apply dict_wf_set.
Qed.

(** ** Creating, then deleting *)

Lemma dict_del_absent {V : Type} (k : string) (d : PyDict.t V) :
  ~ In k (PyDict.keys d) -> PyDict.del k d = d.
Proof.
  induction d as [|[k0 v0] d IH]; simpl; intro Hnotin; [reflexivity|].
  destruct (String.eqb_spec k0 k) as [->|Hne]; [tauto|].
  f_equal. apply IH. tauto.
Qed.

Lemma dict_contains_set {V : Type} (k : string) (v : V) (d : PyDict.t V) :
  PyDict.contains k (PyDict.set k v d) = true.
Proof.
  unfold PyDict.contains. now rewrite dict_get_set_eq.
Qed.

(** X1. Deleting the id a [create_proxied_url] call has just stored under
    always succeeds and leaves the registry without that id: the registry
    from before the call when the id was new, and the registry from
    before without its older entry when the call overwrote one. *)
Theorem create_then_delete (uuid4 : string) (now : Z) (call : CreateCall)
    (reg : registry) :
  let url_id := create_url_id uuid4 call in
  let created := create_proxied_url uuid4 now call reg in
  delete_proxied_url url_id created = (Returned tt, PyDict.del url_id reg)
  /\ (~ In url_id (PyDict.keys reg) ->
      delete_proxied_url url_id created = (Returned tt, reg)).
Proof.
  intros url_id created.
  assert (Hdel : delete_proxied_url url_id created
                 = (Returned tt, PyDict.del url_id reg)).
  { subst created. unfold delete_proxied_url, create_proxied_url.
    fold url_id. rewrite dict_contains_set. simpl.
    now rewrite dict_del_set. }
  split; [exact Hdel|].
  intro Hnew. rewrite Hdel. now rewrite dict_del_absent.
Qed.

(** X2. Deleting is not idempotent: once [delete_proxied_url] has run for
    an id, whether it removed an entry or raised, running it again for
    the same id raises [url_id_not_found] and changes nothing. *)
Theorem delete_twice (url_id : string) (reg : registry)
    (Hwf : PyDict.wf reg) :
  let reg' := snd (delete_proxied_url url_id reg) in
  delete_proxied_url url_id reg'
  = (Raised (ServiceValidationError "url_id_not_found" url_id), reg').
Proof.
  intro reg'.
  assert (Hgone : PyDict.contains url_id reg' = false).
  { subst reg'. unfold delete_proxied_url.
    destruct (PyDict.contains url_id reg) eqn:E; simpl; [|exact E].
    unfold PyDict.contains. now rewrite dict_get_del_eq. }
  unfold delete_proxied_url at 1. now rewrite Hgone.
Qed.

(** ** Facts about the view *)

Section Decision.
Variable urlmatch : string -> string -> option bool.
Variable unquote : string -> string.

(** *** The matcher's answers *)

Lemma says_spec (b : bool) (pattern u : string) :
  says urlmatch b pattern u = true <-> urlmatch pattern u = Some b.
Proof.
  unfold says.
  destruct (urlmatch pattern u) as [[|]|]; destruct b; simpl;
    split; congruence.
Qed.

(** A rule the scan does not go past authorizes, or its pattern is one
    the matcher raises on. *)
Lemma not_passed (now : Z) (u : string) (r : DynamicProxiedURL) :
  passes urlmatch now u r = false ->
  authorizes urlmatch now u r = true \/ urlmatch (url_pattern r) u = None.
Proof.
  unfold passes, authorizes, expired_match, rejects, matches, says.
  destruct (urlmatch (url_pattern r) u) as [[|]|]; simpl.
  - intro H. left. now rewrite H.
  - discriminate.
  - intros _. now right.
Qed.

Lemma passes_not_authorizes (now : Z) (u : string) (r : DynamicProxiedURL) :
  passes urlmatch now u r = true -> authorizes urlmatch now u r = false.
Proof.
  unfold passes, authorizes, expired_match, rejects, matches, says.
  destruct (urlmatch (url_pattern r) u) as [[|]|]; simpl.
  - intros ->. reflexivity.
  - reflexivity.
  - reflexivity.
Qed.

Lemma rejects_passes (now : Z) (u : string) (r : DynamicProxiedURL) :
  rejects urlmatch u r = true -> passes urlmatch now u r = true.
Proof. unfold passes. now intros ->. Qed.

Lemma rejects_not_expired_match (now : Z) (u : string)
    (r : DynamicProxiedURL) :
  rejects urlmatch u r = true -> expired_match urlmatch now u r = false.
Proof.
  unfold expired_match, rejects, matches, says.
  destruct (urlmatch (url_pattern r) u) as [[|]|]; simpl;
    [discriminate | reflexivity | reflexivity].
Qed.

Lemma any_static_not_all_rejected (u : string) (l : list string) :
  any_static urlmatch u l = true -> no_static urlmatch u l = false.
Proof.
  unfold any_static, no_static, says.
  induction l as [|p l IH]; simpl; [discriminate|].
  destruct (urlmatch p u) as [[|]|]; simpl; auto.
Qed.

(** *** The two loops *)

(** One turn of the loop on a rule it goes past. *)
Lemma dynamic_loop_skip (now : Z) (u k : string) (r : DynamicProxiedURL)
    (rest : list (string * DynamicProxiedURL)) (h : bool) (c : nat)
    (reg : registry) :
  passes urlmatch now u r = true ->
  exists c',
    dynamic_loop urlmatch (steady now) u ((k, r) :: rest) h c reg
    = dynamic_loop urlmatch (steady now) u rest
        (h || expired_match urlmatch now u r) c' reg.
Proof.
  unfold passes, expired_match, rejects, matches, says. intro Hpass. simpl.
  destruct (urlmatch (url_pattern r) u) as [[|]|]; simpl in *.
  - pose proof (expiration_passed_steady now c r) as Hp.
    destruct (expiration_passed (steady now) c r) as [passed c'].
    simpl in Hp. subst passed. rewrite Hpass.
    exists c'. now rewrite orb_true_r.
  - exists c. now rewrite orb_false_r.
  - discriminate.
Qed.

(** One turn of the loop on a rule that authorizes. *)
Lemma dynamic_loop_hit (now : Z) (u k : string) (r : DynamicProxiedURL)
    (rest : list (string * DynamicProxiedURL)) (h : bool) (c : nat)
    (reg : registry) :
  authorizes urlmatch now u r = true ->
  dynamic_loop urlmatch (steady now) u ((k, r) :: rest) h c reg
  = Found {| url := u;
             ssl_context :=
               ssl_context_for (ssl_verification r) (ssl_ciphers r) |}
          (snd (use_rule k r reg)).
Proof.
  unfold authorizes, matches, says. intro Hyes. simpl.
  destruct (urlmatch (url_pattern r) u) as [[|]|]; simpl in Hyes;
    try discriminate.
  apply negb_true_iff in Hyes.
  pose proof (expiration_passed_steady now c r) as Hp.
  destruct (expiration_passed (steady now) c r) as [passed c'].
  simpl in Hp. subst passed. rewrite Hyes.
  destruct (use_rule_keeps_ssl k r reg) as [Hv Hc].
  destruct (use_rule k r reg) as [r' reg']. simpl in *.
  now rewrite Hv, Hc.
Qed.

Lemma dynamic_loop_none (now : Z) (u : string)
    (items : list (string * DynamicProxiedURL)) :
  forall (h : bool) (c : nat) (reg : registry),
    every_rule (passes urlmatch now u) items = true ->
    dynamic_loop urlmatch (steady now) u items h c reg
    = Exhausted (h || any_rule (expired_match urlmatch now u) items).
Proof.
  unfold every_rule, any_rule.
  induction items as [|[k r] items IH]; intros h c reg Hall.
  - simpl. now rewrite orb_false_r.
  - simpl in Hall. apply andb_true_iff in Hall as [Hr Hrest].
    destruct (dynamic_loop_skip now u k r items h c reg Hr) as [c' ->].
    rewrite (IH _ c' reg Hrest). simpl. now rewrite orb_assoc.
Qed.

Lemma dynamic_loop_first (now : Z) (u k : string) (r : DynamicProxiedURL)
    (pre post : list (string * DynamicProxiedURL)) :
  forall (h : bool) (c : nat) (reg : registry),
    every_rule (passes urlmatch now u) pre = true ->
    authorizes urlmatch now u r = true ->
    dynamic_loop urlmatch (steady now) u (pre ++ (k, r) :: post) h c reg
    = Found {| url := u;
               ssl_context :=
                 ssl_context_for (ssl_verification r) (ssl_ciphers r) |}
            (snd (use_rule k r reg)).
Proof.
  unfold every_rule.
  induction pre as [|[k0 r0] pre IH]; intros h c reg Hpre Hr.
  - now apply dynamic_loop_hit.
  - simpl in Hpre. apply andb_true_iff in Hpre as [H0 Hpre].
    rewrite <- app_comm_cons.
    destruct (dynamic_loop_skip now u k0 r0 (pre ++ (k, r) :: post) h c reg H0)
      as [c' ->].
    now apply IH.
Qed.

(** The loop is left by the matcher's exception at the first rule it
    raises on. *)
Lemma dynamic_loop_first_thrown (now : Z) (u k : string)
    (r : DynamicProxiedURL) (pre post : list (string * DynamicProxiedURL)) :
  forall (h : bool) (c : nat) (reg : registry),
    every_rule (passes urlmatch now u) pre = true ->
    urlmatch (url_pattern r) u = None ->
    dynamic_loop urlmatch (steady now) u (pre ++ (k, r) :: post) h c reg
    = Thrown BadMatchPattern.
Proof.
  unfold every_rule.
  induction pre as [|[k0 r0] pre IH]; intros h c reg Hpre Hr.
  - simpl. now rewrite Hr.
  - simpl in Hpre. apply andb_true_iff in Hpre as [H0 Hpre].
    rewrite <- app_comm_cons.
    destruct (dynamic_loop_skip now u k0 r0 (pre ++ (k, r) :: post) h c reg H0)
      as [c' ->].
    now apply IH.
Qed.

Lemma static_loop_none (options : Options) (u : string) (l : list string) :
  no_static urlmatch u l = true ->
  static_loop urlmatch options u l = Returned None.
Proof.
  unfold no_static, says.
  induction l as [|p l IH]; simpl; [reflexivity|].
  destruct (urlmatch p u) as [[|]|]; simpl; auto; discriminate.
Qed.

Lemma static_loop_first (options : Options) (u p : string)
    (pre post : list string) :
  no_static urlmatch u pre = true ->
  urlmatch p u = Some true ->
  static_loop urlmatch options u (pre ++ p :: post)
  = Returned (Some {| url := u; ssl_context := options_context options |}).
Proof.
  unfold no_static, says.
  induction pre as [|p0 pre IH]; simpl; intros Hpre Hp.
  - now rewrite Hp.
  - destruct (urlmatch p0 u) as [[|]|]; simpl in Hpre; try discriminate.
    now apply IH.
Qed.

Lemma static_loop_first_thrown (options : Options) (u p : string)
    (pre post : list string) :
  no_static urlmatch u pre = true ->
  urlmatch p u = None ->
  static_loop urlmatch options u (pre ++ p :: post) = Raised BadMatchPattern.
Proof.
  unfold no_static, says.
  induction pre as [|p0 pre IH]; simpl; intros Hpre Hp.
  - now rewrite Hp.
  - destruct (urlmatch p0 u) as [[|]|]; simpl in Hpre; try discriminate.
    now apply IH.
Qed.

(** The first configured pattern the matcher does not reject matches, or
    is one the matcher raises on. *)
Lemma first_static (u : string) (l : list string) :
  no_static urlmatch u l = false ->
  exists pre p post,
    l = pre ++ p :: post
    /\ no_static urlmatch u pre = true
    /\ (urlmatch p u = Some true \/ urlmatch p u = None).
Proof.
  unfold no_static. intro H.
  destruct (forallb_first_false _ _ H) as (pre & p & post & -> & Hpre & Hp).
  exists pre, p, post. split; [reflexivity|]. split; [exact Hpre|].
  unfold says in Hp. destruct (urlmatch p u) as [[|]|]; auto. discriminate.
Qed.

(** The first rule the scan does not go past. *)
Lemma first_stop (now : Z) (u : string) (reg : registry) :
  every_rule (passes urlmatch now u) reg = false ->
  exists pre k r post,
    reg = pre ++ (k, r) :: post
    /\ every_rule (passes urlmatch now u) pre = true
    /\ (authorizes urlmatch now u r = true
        \/ urlmatch (url_pattern r) u = None).
Proof.
  unfold every_rule. intro H.
  destruct (forallb_first_false _ _ H) as (pre & [k r] & post & -> & Hpre & Hr).
  exists pre, k, r, post. split; [reflexivity|]. split; [exact Hpre|].
  now apply not_passed.
Qed.

(** *** The decision *)

(** The first dynamic rule that authorizes decides. *)
Lemma decision_dynamic (now : Z) (options : Options) (request : Request)
    (q k : string) (r : DynamicProxiedURL) (pre post : registry) :
  query_get "url" (query request) = Some q ->
  every_rule (passes urlmatch now (unquote q)) pre = true ->
  authorizes urlmatch now (unquote q) r = true ->
  _get_proxied_url urlmatch unquote (steady now) options request (pre ++ (k, r) :: post)
  = (Returned {| url := unquote q;
                 ssl_context :=
                   ssl_context_for (ssl_verification r) (ssl_ciphers r) |},
     snd (use_rule k r (pre ++ (k, r) :: post))).
Proof.
  intros Hq Hpre Hr.
  unfold _get_proxied_url, PyDict.items. rewrite Hq.
  now rewrite (dynamic_loop_first now (unquote q) k r pre post false 0%nat).
Qed.

(** A rule the matcher raises on, reached by the scan, ends the request. *)
Lemma decision_dynamic_thrown (now : Z) (options : Options)
    (request : Request) (q k : string) (r : DynamicProxiedURL)
    (pre post : registry) :
  query_get "url" (query request) = Some q ->
  every_rule (passes urlmatch now (unquote q)) pre = true ->
  urlmatch (url_pattern r) (unquote q) = None ->
  _get_proxied_url urlmatch unquote (steady now) options request (pre ++ (k, r) :: post)
  = (Raised BadMatchPattern, pre ++ (k, r) :: post).
Proof.
  intros Hq Hpre Hr.
  unfold _get_proxied_url, PyDict.items. rewrite Hq.
  now rewrite (dynamic_loop_first_thrown now (unquote q) k r pre post false
                 0%nat).
Qed.

(** Past all the dynamic rules, the first matching pattern decides. *)
Lemma decision_static (now : Z) (options : Options) (request : Request)
    (q p : string) (reg : registry) (pre post : list string) :
  query_get "url" (query request) = Some q ->
  every_rule (passes urlmatch now (unquote q)) reg = true ->
  url_patterns_of options = pre ++ p :: post ->
  no_static urlmatch (unquote q) pre = true ->
  urlmatch p (unquote q) = Some true ->
  _get_proxied_url urlmatch unquote (steady now) options request reg
  = (Returned {| url := unquote q; ssl_context := options_context options |},
     reg).
Proof.
  intros Hq Hall Hpat Hpre Hp.
  unfold _get_proxied_url, PyDict.items. rewrite Hq.
  rewrite dynamic_loop_none by assumption.
  rewrite Hpat. now rewrite static_loop_first.
Qed.

Lemma decision_static_thrown (now : Z) (options : Options)
    (request : Request) (q p : string) (reg : registry)
    (pre post : list string) :
  query_get "url" (query request) = Some q ->
  every_rule (passes urlmatch now (unquote q)) reg = true ->
  url_patterns_of options = pre ++ p :: post ->
  no_static urlmatch (unquote q) pre = true ->
  urlmatch p (unquote q) = None ->
  _get_proxied_url urlmatch unquote (steady now) options request reg
  = (Raised BadMatchPattern, reg).
Proof.
  intros Hq Hall Hpat Hpre Hp.
  unfold _get_proxied_url, PyDict.items. rewrite Hq.
  rewrite dynamic_loop_none by assumption.
  rewrite Hpat. now rewrite static_loop_first_thrown.
Qed.

(** Past all the rules and all the patterns, the request is refused. *)
Lemma decision_refused (now : Z) (options : Options) (request : Request)
    (q : string) (reg : registry) :
  query_get "url" (query request) = Some q ->
  every_rule (passes urlmatch now (unquote q)) reg = true ->
  no_static urlmatch (unquote q) (url_patterns_of options) = true ->
  _get_proxied_url urlmatch unquote (steady now) options request reg
  = (Raised (if any_rule (expired_match urlmatch now (unquote q)) reg
             then HASSProxyLibExpiredError
             else HASSProxyLibNotFoundRequestError),
     reg).
Proof.
  intros Hq Hall Hsta.
  unfold _get_proxied_url, PyDict.items. rewrite Hq.
  rewrite dynamic_loop_none by assumption.
  rewrite static_loop_none by assumption. simpl.
  destruct (any_rule (expired_match urlmatch now (unquote q)) reg); reflexivity.
Qed.

(** C1, amended. Take a request that carries a URL, the clock reading
    [now] throughout. The first dynamic rule in registry order that
    matches the decoded URL and has not expired decides the answer,
    whatever comes after it and whatever the static patterns are, when
    the matcher answers for the rules before it: those it rejects and
    those that match but have expired are passed over. The static
    patterns decide only past all the dynamic rules, none authorizing.
    When neither a rule nor a pattern authorizes, the request is refused
    with [HASSProxyLibExpiredError] if some expired dynamic rule matched
    and with [HASSProxyLibNotFoundRequestError] otherwise. Hence, when
    the matcher raises on no stored rule and no configured pattern, the
    request is authorized as soon as some dynamic rule matches and has
    not expired or some static pattern matches. *)
Theorem authorization_decision (now : Z) (options : Options)
    (request : Request) (q : string) (reg : registry)
    (Hq : query_get "url" (query request) = Some q) :
  let u := unquote q in
  let result := _get_proxied_url urlmatch unquote (steady now) options request reg in
  ((forall k r, In (k, r) reg -> urlmatch (url_pattern r) u <> None) ->
   (forall p, In p (url_patterns_of options) -> urlmatch p u <> None) ->
   any_rule (authorizes urlmatch now u) reg = true
   \/ any_static urlmatch u (url_patterns_of options) = true ->
   exists p, fst result = Returned p)
  /\ (forall pre k r post,
         reg = pre ++ (k, r) :: post ->
         every_rule (passes urlmatch now u) pre = true ->
         authorizes urlmatch now u r = true ->
         result
         = (Returned {| url := u;
                        ssl_context :=
                          ssl_context_for (ssl_verification r) (ssl_ciphers r) |},
            snd (use_rule k r reg)))
  /\ (forall pre p post,
         every_rule (passes urlmatch now u) reg = true ->
         url_patterns_of options = pre ++ p :: post ->
         no_static urlmatch u pre = true ->
         urlmatch p u = Some true ->
         result
         = (Returned {| url := u; ssl_context := options_context options |},
            reg))
  /\ (every_rule (passes urlmatch now u) reg = true ->
      no_static urlmatch u (url_patterns_of options) = true ->
      result
      = (Raised (if any_rule (expired_match urlmatch now u) reg
                 then HASSProxyLibExpiredError
                 else HASSProxyLibNotFoundRequestError),
         reg)).
Proof.
  intros u result. subst u result.
  split; [|split; [|split]].
  - intros Hrules Hpatterns Hsome.
    destruct (every_rule (passes urlmatch now (unquote q)) reg) eqn:Hall.
    + destruct Hsome as [Hdyn|Hsta].
      * rewrite (every_rule_excludes _ _ reg
                   (passes_not_authorizes now (unquote q)) Hall) in Hdyn.
        discriminate.
      * apply any_static_not_all_rejected in Hsta.
        destruct (first_static _ _ Hsta)
          as (pre & p & post & Hpat & Hpre & [Hp|Hp]).
        -- rewrite (decision_static now options request q p reg pre post)
             by assumption.
           simpl. eauto.
        -- exfalso. apply (Hpatterns p); [|exact Hp].
           rewrite Hpat. apply in_elt.
    + destruct (first_stop _ _ _ Hall)
        as (pre & k & r & post & -> & Hpre & [Hr|Hr]).
      * rewrite (decision_dynamic now options request q k r pre post)
          by assumption.
        simpl. eauto.
      * exfalso. apply (Hrules k r); [apply in_elt | exact Hr].
  - intros pre k r post -> Hpre Hr. now apply decision_dynamic.
  - intros pre p post Hall Hpat Hpre Hp.
    now apply (decision_static now options request q p reg pre post).
  - intros Hall Hsta. now apply decision_refused.
Qed.

(** C3. When the first dynamic rule that matches and has not expired
    authorizes a request: with [open_limit > 0] the count goes down by
    exactly one, and the entry leaves the registry exactly when the new
    count is zero, everything else staying in place; with [open_limit = 0]
    the registry is left as it was, so the same request can be authorized
    any number of times. *)
Theorem authorizing_rule_bookkeeping (now : Z) (options : Options)
    (request : Request) (q k : string) (r : DynamicProxiedURL)
    (pre post : registry)
    (Hwf : PyDict.wf (pre ++ (k, r) :: post))
    (Hq : query_get "url" (query request) = Some q)
    (Hpre : every_rule (passes urlmatch now (unquote q)) pre = true)
    (Hr : authorizes urlmatch now (unquote q) r = true) :
  let reg := pre ++ (k, r) :: post in
  let reg' := snd (_get_proxied_url urlmatch unquote (steady now) options request reg) in
  let p := {| url := unquote q;
              ssl_context :=
                ssl_context_for (ssl_verification r) (ssl_ciphers r) |} in
  fst (_get_proxied_url urlmatch unquote (steady now) options request reg) = Returned p
  /\ (0 < open_limit r ->
      (open_limit r - 1 <> 0 ->
       reg' = pre ++ (k, with_open_limit (open_limit r - 1) r) :: post
       /\ PyDict.get k reg' = Some (with_open_limit (open_limit r - 1) r))
      /\ (open_limit r - 1 = 0 -> reg' = pre ++ post)
      /\ (PyDict.get k reg' = None <-> open_limit r - 1 = 0))
  /\ (open_limit r = 0 ->
      reg' = reg
      /\ forall n : nat,
           replay urlmatch unquote now options request n reg = (repeat (Returned p) n, reg)).
Proof.
  intros reg reg' p.
  destruct (dict_wf_mid _ _ _ _ Hwf) as [Hk_pre Hk_post].
  pose proof (decision_dynamic now options request q k r pre post Hq Hpre Hr)
    as Hfirst.
  fold reg p in Hfirst.
  assert (Hreg' : reg' =
            if open_limit r =? 0 then pre ++ (k, r) :: post
            else if open_limit r - 1 =? 0 then pre ++ post
            else pre ++ (k, with_open_limit (open_limit r - 1) r) :: post).
  { subst reg'. rewrite Hfirst. simpl. now apply use_rule_registry. }
  split; [now rewrite Hfirst|].
  split.
  - intro Hpos.
    destruct (Z.eqb_spec (open_limit r) 0) as [E|_]; [lia|].
    destruct (Z.eqb_spec (open_limit r - 1) 0) as [E1|N1].
    + split; [tauto|]. split; [tauto|].
      split; [tauto|]. intros _.
      rewrite Hreg'. apply dict_get_None.
      rewrite dict_keys_app, in_app_iff. tauto.
    + assert (Hget : PyDict.get k reg'
                     = Some (with_open_limit (open_limit r - 1) r)).
      { rewrite Hreg'. now apply dict_get_mid. }
      split; [tauto|]. split; [tauto|].
      split; [|tauto]. rewrite Hget. discriminate.
  - intro Hzero.
    assert (Hsame : reg' = reg).
    { rewrite Hreg'. now rewrite Hzero. }
    split; [exact Hsame|].
    assert (Hu : snd (use_rule k r reg) = reg).
    { subst reg'. now rewrite Hfirst in Hsame. }
    induction n as [|n IH]; [reflexivity|].
    cbn [replay repeat]. rewrite Hfirst, Hu, IH. reflexivity.
Qed.

(** C4. A dynamic rule whose pattern matches the requested URL and whose
    expiration is set and lies before [now] never authorizes, whatever its
    [open_limit]: after the request the registry still holds the rule as
    it was, neither decremented nor removed; an answer that authorizes is
    the answer the registry without the rule gives; and when the registry
    without the rule would refuse as not found or as expired, the request
    is refused as expired, while an exception of the matcher stays that
    exception. *)
Theorem expired_rule_never_authorizes (now : Z) (options : Options)
    (request : Request) (q k : string) (r : DynamicProxiedURL)
    (reg : registry)
    (Hwf : PyDict.wf reg)
    (Hq : query_get "url" (query request) = Some q)
    (Hin : In (k, r) reg)
    (Hmatch : urlmatch (url_pattern r) (unquote q) = Some true)
    (Hset : expiration r <> 0)
    (Hpast : expiration r < now) :
  let result := _get_proxied_url urlmatch unquote (steady now) options request reg in
  let without :=
    _get_proxied_url urlmatch unquote (steady now) options request (PyDict.del k reg) in
  PyDict.get k (snd result) = Some r
  /\ (forall p, fst result = Returned p -> fst without = Returned p)
  /\ (forall e, fst without = Raised e ->
                fst result
                = Raised (match e with
                          | BadMatchPattern => BadMatchPattern
                          | _ => HASSProxyLibExpiredError
                          end)).
Proof.
  intros result without. subst result without.
  set (u := unquote q) in *.
  assert (Hexp : is_expired now r = true).
  { unfold is_expired. apply andb_true_iff. split.
    - apply negb_true_iff. now apply Z.eqb_neq.
    - now apply Z.ltb_lt. }
  assert (Hem : expired_match urlmatch now u r = true).
  { unfold expired_match, matches, says. now rewrite Hmatch, Hexp. }
  assert (Hpass : passes urlmatch now u r = true).
  { unfold passes. rewrite Hem. apply orb_true_r. }
  assert (Hget : PyDict.get k reg = Some r) by now apply dict_get_In.
  rewrite (dict_del_filter k reg Hwf).
  set (keep := fun kv : string * DynamicProxiedURL =>
                 negb (String.eqb (fst kv) k)).
  destruct (every_rule (passes urlmatch now u) reg) eqn:Hall.
  - pose proof (every_rule_filter _ keep reg Hall) as Hall'.
    destruct (no_static urlmatch u (url_patterns_of options)) eqn:Hsta.
    + rewrite (decision_refused now options request q reg) by assumption.
      rewrite (decision_refused now options request q (filter keep reg))
        by assumption.
      fold u. rewrite (any_rule_In _ k r reg Hin Hem). simpl.
      split; [assumption|]. split; [discriminate|].
      intros e.
      destruct (any_rule (expired_match urlmatch now u) (filter keep reg));
        intros [= <-]; reflexivity.
    + destruct (first_static _ _ Hsta)
        as (spre & p & spost & Hpat & Hspre & [Hp|Hp]).
      * rewrite (decision_static now options request q p reg spre spost)
          by assumption.
        rewrite (decision_static now options request q p (filter keep reg)
                   spre spost) by assumption.
        simpl. split; [assumption|]. split; [auto | discriminate].
      * rewrite (decision_static_thrown now options request q p reg spre
                   spost) by assumption.
        rewrite (decision_static_thrown now options request q p
                   (filter keep reg) spre spost) by assumption.
        simpl. split; [assumption|]. split; [discriminate|].
        intros e [= <-]. reflexivity.
  - destruct (first_stop _ _ _ Hall)
      as (pre & k1 & r1 & post & Hreg & Hpre & Hstop).
    assert (Hk : k1 <> k).
    { intros ->. rewrite Hreg in Hin, Hwf.
      apply (dict_get_In k r _ Hwf) in Hin.
      destruct (dict_wf_mid _ _ _ _ Hwf) as [Hk_pre _].
      rewrite dict_get_mid in Hin by assumption.
      injection Hin as ->.
      destruct Hstop as [Hr1|Hr1].
      - rewrite (passes_not_authorizes now u r Hpass) in Hr1. discriminate.
      - fold u in Hmatch. congruence. }
    assert (Hkeep : keep (k1, r1) = true).
    { unfold keep. simpl. apply negb_true_iff. now apply String.eqb_neq. }
    pose proof (every_rule_filter _ keep pre Hpre) as Hpre'.
    subst reg. rewrite filter_app. simpl. rewrite Hkeep.
    destruct Hstop as [Hr1|Hr1].
    + rewrite (decision_dynamic now options request q k1 r1 pre post)
        by assumption.
      rewrite (decision_dynamic now options request q k1 r1 (filter keep pre)
                 (filter keep post)) by assumption.
      simpl. split; [|split].
      * now rewrite use_rule_others by congruence.
      * auto.
      * discriminate.
    + rewrite (decision_dynamic_thrown now options request q k1 r1 pre post)
        by assumption.
      rewrite (decision_dynamic_thrown now options request q k1 r1
                 (filter keep pre) (filter keep post)) by assumption.
      simpl. split; [assumption|]. split; [discriminate|].
      intros e [= <-]. reflexivity.
Qed.

(** C7, amended. When the scan has gone past every dynamic rule, the
    matcher answering for each and none authorizing, the configured
    patterns are tried in the order they are declared; the first one that
    matches the URL, the matcher rejecting those before it, authorizes at
    once under the SSL settings of the config entry's options: a
    verifying context when [ssl_verification] is absent or true, a
    non-verifying one when it is false, on the configured cipher list.
    No expiration and no use count is involved: the registry is left
    alone and the same request is authorized again any number of times. *)
Theorem static_fallback (now : Z) (options : Options) (request : Request)
    (q p : string) (reg : registry) (pre post : list string)
    (Hq : query_get "url" (query request) = Some q)
    (Hnone : every_rule (passes urlmatch now (unquote q)) reg = true)
    (Hpat : url_patterns_of options = pre ++ p :: post)
    (Hpre : no_static urlmatch (unquote q) pre = true)
    (Hp : urlmatch p (unquote q) = Some true) :
  let ciphers := _proxy_ssl_cipher_to_ha_ssl_cipher (opt_ssl_ciphers options) in
  let answer :=
    {| url := unquote q;
       ssl_context :=
         match opt_ssl_verification options with
         | Some false => client_context_no_verify ciphers
         | Some true => client_context ciphers
         | None => client_context ciphers
         end |} in
  _get_proxied_url urlmatch unquote (steady now) options request reg = (Returned answer, reg)
  /\ forall n : nat,
       replay urlmatch unquote now options request n reg = (repeat (Returned answer) n, reg).
Proof.
  intros ciphers answer.
  assert (Hone : _get_proxied_url urlmatch unquote (steady now) options request reg
                 = (Returned answer, reg)).
  { rewrite (decision_static now options request q p reg pre post)
      by assumption.
    subst answer ciphers. unfold options_context, ssl_context_for,
      _get_ssl_context, _get_ssl_context_no_verify.
    destruct (opt_ssl_verification options) as [[|]|]; reflexivity. }
  split; [exact Hone|].
  induction n as [|n IH]; [reflexivity|].
  cbn [replay repeat]. now rewrite Hone, IH.
Qed.

(** C8. A request that is refused leaves the registry exactly as it was,
    whether it is refused as not found or as expired, and whatever the
    clock reads; so does a request that ends in an exception of the
    matcher, the only other way the view raises. *)
Theorem refusal_keeps_registry (time_time : nat -> Z) (options : Options)
    (request : Request) (reg : registry) (e : exn)
    (Hrefused :
       fst (_get_proxied_url urlmatch unquote time_time options request reg) = Raised e) :
  snd (_get_proxied_url urlmatch unquote time_time options request reg) = reg
  /\ (e = HASSProxyLibNotFoundRequestError
      \/ e = HASSProxyLibExpiredError
      \/ e = BadMatchPattern).
Proof.
  assert (Hdyn : forall u items h c s,
             dynamic_loop urlmatch time_time u items h c reg = Thrown s ->
             s = BadMatchPattern).
  { intros u items. induction items as [|[k r] items IH]; intros h c s; simpl.
    - discriminate.
    - destruct (urlmatch (url_pattern r) u) as [[|]|].
      + destruct (expiration_passed time_time c r) as [[|] c'].
        * apply IH.
        * destruct (use_rule k r reg). discriminate.
      + apply IH.
      + now intros [= <-]. }
  assert (Hsta : forall u l s,
             static_loop urlmatch options u l = Raised s ->
             s = BadMatchPattern).
  { intros u l. induction l as [|p l IH]; intro s; simpl.
    - discriminate.
    - destruct (urlmatch p u) as [[|]|].
      + discriminate.
      + apply IH.
      + now intros [= <-]. }
  revert Hrefused. unfold _get_proxied_url.
  case (query_get "url" (query request)) as [q|]; simpl.
  - destruct (dynamic_loop urlmatch time_time (unquote q) (PyDict.items reg)
                false 0 reg) as [p reg'|seen|s] eqn:E; simpl.
    + discriminate.
    + destruct (static_loop urlmatch options (unquote q)
                  (url_patterns_of options)) as [[p|]|s] eqn:Es; simpl.
      * discriminate.
      * case seen; simpl; intros [= <-]; auto.
      * intros [= <-]. rewrite (Hsta _ _ _ Es). auto.
    + intros [= <-]. rewrite (Hdyn _ _ _ _ _ E). auto.
  - intros [= <-]. auto.
Qed.

(** C9. A request without a [url] query parameter is refused as not
    found, whatever the registry and the options hold; the registry is
    not touched. *)
Theorem missing_url_parameter (time_time : nat -> Z) (options : Options)
    (request : Request) (reg : registry)
    (Hmissing : query_get "url" (query request) = None) :
  _get_proxied_url urlmatch unquote time_time options request reg
  = (Raised HASSProxyLibNotFoundRequestError, reg).
Proof.
  unfold _get_proxied_url. now rewrite Hmissing.
Qed.

(** C6. [delete_proxied_url] raises the [url_id_not_found] validation
    error exactly when the id is not a key of the registry, and then the
    registry is as before. When the id is a key, the call returns, that
    entry is gone, and the other entries are as before and in the same
    order; a later request whose URL the matcher finds to match no
    remaining dynamic rule and no static pattern is refused as not
    found. *)
Theorem delete_proxied_url_result (now : Z) (options : Options)
    (url_id : string) (reg : registry) (Hwf : PyDict.wf reg) :
  let result := delete_proxied_url url_id reg in
  (fst result = Raised (ServiceValidationError "url_id_not_found" url_id)
   <-> ~ In url_id (PyDict.keys reg))
  /\ (fst result = Returned tt <-> In url_id (PyDict.keys reg))
  /\ (~ In url_id (PyDict.keys reg) -> snd result = reg)
  /\ (In url_id (PyDict.keys reg) ->
      PyDict.get url_id (snd result) = None
      /\ (forall k, k <> url_id ->
                    PyDict.get k (snd result) = PyDict.get k reg)
      /\ snd result
         = filter (fun kv => negb (String.eqb (fst kv) url_id)) reg
      /\ forall request q,
           query_get "url" (query request) = Some q ->
           every_rule (rejects urlmatch (unquote q)) (snd result) = true ->
           no_static urlmatch (unquote q) (url_patterns_of options) = true ->
           _get_proxied_url urlmatch unquote (steady now) options request (snd result)
           = (Raised HASSProxyLibNotFoundRequestError, snd result)).
Proof.
  intro result. subst result. unfold delete_proxied_url.
  pose proof (dict_contains_In url_id reg) as Hc.
  destruct (PyDict.contains url_id reg) eqn:E; simpl.
  - assert (Hin : In url_id (PyDict.keys reg)) by now apply Hc.
    split; [split; [discriminate | tauto]|].
    split; [tauto|]. split; [tauto|]. intros _.
    split; [now apply dict_get_del_eq|].
    split; [intros k Hne; now apply dict_get_del_ne|].
    split; [now apply dict_del_filter|].
    intros request q Hq Hnone Hsta.
    assert (Hna : every_rule (passes urlmatch now (unquote q))
                             (PyDict.del url_id reg) = true).
    { apply (every_rule_weaken (rejects urlmatch (unquote q)));
        [|assumption].
      intros r. apply rejects_passes. }
    assert (Hnx : any_rule (expired_match urlmatch now (unquote q))
                           (PyDict.del url_id reg) = false).
    { apply (every_rule_excludes (rejects urlmatch (unquote q)));
        [|assumption].
      intros r. apply rejects_not_expired_match. }
    rewrite (decision_refused now options request q) by assumption.
    now rewrite Hnx.
  - assert (Hnotin : ~ In url_id (PyDict.keys reg)).
    { intro Hin. apply Hc in Hin. discriminate. }
    split; [tauto|].
    split; [split; [discriminate | contradiction]|].
    split; [reflexivity | contradiction].
Qed.

(** *** The registry over time *)

(** Whatever the clock reads, a loop that returns has used one of the
    items it went through. *)
Lemma dynamic_loop_found (time_time : nat -> Z) (u : string)
    (items : list (string * DynamicProxiedURL)) (reg : registry) :
  forall (h : bool) (c : nat) (p : ProxiedURL) (reg' : registry),
    dynamic_loop urlmatch time_time u items h c reg = Found p reg' ->
    exists k r, In (k, r) items /\ reg' = snd (use_rule k r reg).
Proof.
  induction items as [|[k r] items IH]; intros h c p reg'; simpl.
  - discriminate.
  - destruct (urlmatch (url_pattern r) u) as [[|]|].
    + destruct (expiration_passed time_time c r) as [[|] c'].
      * intro H. destruct (IH _ _ _ _ H) as (k1 & r1 & Hin & ->). eauto.
      * destruct (use_rule k r reg) as [r' reg1] eqn:E.
        intros [= _ <-]. exists k, r. rewrite E. auto.
    + intro H. destruct (IH _ _ _ _ H) as (k1 & r1 & Hin & ->). eauto.
    + discriminate.
Qed.

(** The registry after a request: as before, or with one rule used. *)
Lemma get_proxied_url_registry (time_time : nat -> Z) (options : Options)
    (request : Request) (reg : registry) :
  snd (_get_proxied_url urlmatch unquote time_time options request reg) = reg
  \/ exists k r,
       In (k, r) reg
       /\ snd (_get_proxied_url urlmatch unquote time_time options request reg)
          = snd (use_rule k r reg).
Proof.
  unfold _get_proxied_url.
  destruct (query_get "url" (query request)) as [q|]; [|now left].
  destruct (dynamic_loop urlmatch time_time (unquote q) (PyDict.items reg) false 0 reg)
    as [p reg'|seen|s] eqn:E.
  - right. destruct (dynamic_loop_found _ _ _ _ _ _ _ _ E) as (k & r & Hin & ->).
    exists k, r. auto.
  - left.
    destruct (static_loop urlmatch options (unquote q) (url_patterns_of options))
      as [[p|]|s]; try reflexivity.
    destruct seen; reflexivity.
  - now left.
Qed.

Lemma handle_wf (options : Options) (reg : registry) (ev : event) :
  PyDict.wf reg -> PyDict.wf (handle urlmatch unquote options reg ev).
Proof.
  intro Hwf. destruct ev as [call uuid4 now|url_id|request time_time]; simpl.
  - destruct (opt_dynamic_urls options && CREATE_PROXIED_URL_SCHEMA call);
      [|assumption].
    unfold create_proxied_url. now apply dict_wf_set.
  - destruct (opt_dynamic_urls options); [|assumption].
    unfold delete_proxied_url.
    destruct (PyDict.contains url_id reg); simpl; [|assumption].
    now apply dict_wf_del.
  - destruct (get_proxied_url_registry time_time options request reg)
      as [->|(k & r & _ & ->)]; [assumption|].
    now apply use_rule_wf.
Qed.

(** The registry of a running entry is a dictionary. *)
Lemma run_wf (options : Options) (history : list event) :
  PyDict.wf (run urlmatch unquote options history).
Proof.
  unfold run.
  assert (Hgen : forall reg, PyDict.wf reg ->
                   PyDict.wf (fold_left (handle urlmatch unquote options) history reg)).
  { induction history as [|ev history IH]; intros reg Hwf; simpl.
    - assumption.
    - apply IH. now apply handle_wf. }
  apply Hgen. constructor.
Qed.

(** A property of open limits that survives counting down to a value
    other than zero holds throughout a history whose calls establish it. *)
Lemma run_open_limits (P : Z -> Prop) (options : Options)
    (history : list event) :
  (forall n, P n -> n <> 0 -> n - 1 <> 0 -> P (n - 1)) ->
  Forall (fun ev =>
            match ev with
            | CreateProxiedURL call _ _ =>
                CREATE_PROXIED_URL_SCHEMA call = true ->
                P (call_open_limit call)
            | _ => True
            end) history ->
  forall k r, In (k, r) (run urlmatch unquote options history) -> P (open_limit r).
Proof.
  intros Hdown. unfold run.
  assert (Hgen : forall reg,
             (forall k r, In (k, r) reg -> P (open_limit r)) ->
             Forall (fun ev =>
                       match ev with
                       | CreateProxiedURL call _ _ =>
                           CREATE_PROXIED_URL_SCHEMA call = true ->
                           P (call_open_limit call)
                       | _ => True
                       end) history ->
             forall k r, In (k, r) (fold_left (handle urlmatch unquote options) history reg) ->
                         P (open_limit r)).
  { induction history as [|ev history IH]; intros reg Hreg Hall; simpl.
    - exact Hreg.
    - inversion Hall as [|? ? Hev Hrest]; subst.
      apply IH; [|exact Hrest].
      intros k r.
      destruct ev as [call uuid4 now|url_id|request time_time]; simpl.
      + destruct (opt_dynamic_urls options); simpl; [|apply Hreg].
        destruct (CREATE_PROXIED_URL_SCHEMA call); [|apply Hreg].
        unfold create_proxied_url. intro Hin.
        apply dict_In_set in Hin as [[= _ ->]|Hin]; [|eapply Hreg; eauto].
        simpl. now apply Hev.
      + destruct (opt_dynamic_urls options); [|apply Hreg].
        unfold delete_proxied_url.
        destruct (PyDict.contains url_id reg); simpl; [|apply Hreg].
        intro Hin. apply dict_In_del in Hin. eapply Hreg; eauto.
      + destruct (get_proxied_url_registry time_time options request reg)
          as [->|(k1 & r1 & Hin1 & ->)]; [apply Hreg|].
        intro Hin. apply use_rule_In in Hin
          as [Hin|([= -> ->] & Hnz & Hnz')]; [eapply Hreg; eauto|].
        simpl. apply Hdown; [eapply Hreg; eauto | assumption | assumption]. }
  intros Hall. apply Hgen; [|exact Hall].
  intros k r [].
Qed.

(** C2, amended. In every registry reached from the empty one by service
    calls and requests, every open limit is at least [0]. A stored [0] is
    the open limit of a rule created as unlimited: when every call of the
    history asks for a limited rule, every stored open limit is positive.
    A request only counts down: an entry found after it was there before,
    unchanged or with its open limit one lower and still positive, so the
    request that brings an open limit to zero has removed the entry. *)
Theorem open_limit_over_time (options : Options) (history : list event) :
  let reg := run urlmatch unquote options history in
  (forall k r, PyDict.get k reg = Some r -> 0 <= open_limit r)
  /\ (Forall limited history ->
      forall k r, PyDict.get k reg = Some r -> 0 < open_limit r)
  /\ (forall request time_time k r',
         PyDict.get k (handle urlmatch unquote options reg (GetProxiedURL request time_time))
         = Some r' ->
         exists r,
           PyDict.get k reg = Some r
           /\ (r' = r
               \/ (r' = with_open_limit (open_limit r - 1) r
                   /\ 0 < open_limit r'))).
Proof.
  intro reg.
  pose proof (run_wf options history) as Hwf. fold reg in Hwf.
  assert (Hnonneg : forall k r, In (k, r) reg -> 0 <= open_limit r).
  { apply (run_open_limits (fun n => 0 <= n)); [intros; lia|].
    apply Forall_forall. intros [call uuid4 now| |] _; auto.
    unfold CREATE_PROXIED_URL_SCHEMA, positive_int. intro Hok.
    apply andb_true_iff in Hok as [Hok _].
    apply andb_true_iff in Hok as [_ Hok]. now apply Z.leb_le. }
  split; [|split].
  - intros k r Hget. apply (Hnonneg k). now apply dict_get_In.
  - intros Hlim k r Hget.
    apply (run_open_limits (fun n => 0 < n) options history) with (k := k);
      [intros; lia | | now apply dict_get_In].
    eapply Forall_impl; [|exact Hlim].
    intros [call uuid4 now| |]; simpl; auto.
    unfold CREATE_PROXIED_URL_SCHEMA, positive_int. intros Hnz Hok.
    apply andb_true_iff in Hok as [Hok _].
    apply andb_true_iff in Hok as [_ Hok]. apply Z.leb_le in Hok. lia.
  - intros request time_time k r' Hget.
    pose proof (handle_wf options reg (GetProxiedURL request time_time) Hwf)
      as Hwf'.
    apply (dict_get_In k r' _ Hwf') in Hget. simpl in Hget.
    destruct (get_proxied_url_registry time_time options request reg)
      as [E|(k1 & r1 & Hin1 & E)]; rewrite E in Hget.
    + exists r'. split; [now apply dict_get_In | now left].
    + apply use_rule_In in Hget as [Hin|([= Hk Hr'] & Hnz & Hnz')].
      * exists r'. split; [now apply dict_get_In | now left].
      * exists r1. rewrite Hk, Hr'.
        split; [now apply dict_get_In|]. right.
        split; [reflexivity|]. simpl.
        pose proof (Hnonneg k1 r1 Hin1). lia.
Qed.

(** *** What an answer rests on *)

(** Whatever the clock reads, a loop that returns does so for an item
    whose pattern matches and whose expiration is unset or not before the
    reading taken for it. *)
Lemma dynamic_loop_found_rule (time_time : nat -> Z) (u : string)
    (items : list (string * DynamicProxiedURL)) (reg : registry) :
  forall (h : bool) (c : nat) (p : ProxiedURL) (reg' : registry),
    dynamic_loop urlmatch time_time u items h c reg = Found p reg' ->
    exists k r n,
      In (k, r) items
      /\ urlmatch (url_pattern r) u = Some true
      /\ (expiration r = 0 \/ time_time n <= expiration r)
      /\ p = {| url := u;
                ssl_context :=
                  ssl_context_for (ssl_verification r) (ssl_ciphers r) |}.
Proof.
  induction items as [|[k r] items IH]; intros h c p reg'; simpl;
    [discriminate|].
  destruct (urlmatch (url_pattern r) u) as [[|]|] eqn:Hm.
  - unfold expiration_passed.
    destruct (Z.eqb_spec (expiration r) 0) as [Hz|Hnz].
    + destruct (use_rule_keeps_ssl k r reg) as [Hv Hc].
      destruct (use_rule k r reg) as [r' reg1]. simpl in Hv, Hc.
      intros [= <- _]. exists k, r, 0%nat. rewrite Hv, Hc. auto 6.
    + destruct (Z.ltb_spec (expiration r) (time_time c)) as [Hlt|Hge].
      * intro H. destruct (IH _ _ _ _ H) as (k1 & r1 & n & Hin & Hrest).
        exists k1, r1, n. auto.
      * destruct (use_rule_keeps_ssl k r reg) as [Hv Hc].
        destruct (use_rule k r reg) as [r' reg1]. simpl in Hv, Hc.
        intros [= <- _]. exists k, r, c. rewrite Hv, Hc. auto 6.
  - intro H. destruct (IH _ _ _ _ H) as (k1 & r1 & n & Hin & Hrest).
    exists k1, r1, n. auto.
  - discriminate.
Qed.

(** A static answer comes from the first pattern the matcher does not
    reject, and that pattern matches. *)
Lemma static_loop_found (options : Options) (u : string) (l : list string)
    (p : ProxiedURL) :
  static_loop urlmatch options u l = Returned (Some p) ->
  exists pre pat post,
    l = pre ++ pat :: post
    /\ no_static urlmatch u pre = true
    /\ urlmatch pat u = Some true
    /\ p = {| url := u; ssl_context := options_context options |}.
Proof.
  induction l as [|pat l IH]; simpl; [discriminate|].
  destruct (urlmatch pat u) as [[|]|] eqn:Hm.
  - intros [= <-]. exists [], pat, l. auto.
  - intro H. destruct (IH H) as (pre & pat' & post & -> & Hpre & Hrest).
    exists (pat :: pre), pat', post. split; [reflexivity|].
    split; [|exact Hrest].
    unfold no_static, says in *. simpl. now rewrite Hm.
  - discriminate.
Qed.

Lemma static_loop_missed (options : Options) (u : string) (l : list string) :
  static_loop urlmatch options u l = Returned None ->
  no_static urlmatch u l = true.
Proof.
  unfold no_static, says.
  induction l as [|pat l IH]; simpl; [reflexivity|].
  destruct (urlmatch pat u) as [[|]|]; simpl; [discriminate | exact IH
                                              | discriminate].
Qed.

Lemma static_loop_thrown (options : Options) (u : string) (l : list string)
    (e : exn) :
  static_loop urlmatch options u l = Raised e ->
  e = BadMatchPattern /\ exists pat, In pat l /\ urlmatch pat u = None.
Proof.
  induction l as [|pat l IH]; simpl; [discriminate|].
  destruct (urlmatch pat u) as [[|]|] eqn:Hm.
  - discriminate.
  - intro H. destruct (IH H) as (-> & pat' & Hin & Hnone). eauto.
  - intros [= <-]. eauto.
Qed.

Lemma dynamic_loop_thrown (time_time : nat -> Z) (u : string)
    (items : list (string * DynamicProxiedURL)) (reg : registry) :
  forall (h : bool) (c : nat) (e : exn),
    dynamic_loop urlmatch time_time u items h c reg = Thrown e ->
    e = BadMatchPattern
    /\ exists k r, In (k, r) items /\ urlmatch (url_pattern r) u = None.
Proof.
  induction items as [|[k r] items IH]; intros h c e; simpl; [discriminate|].
  destruct (urlmatch (url_pattern r) u) as [[|]|] eqn:Hm.
  - destruct (expiration_passed time_time c r) as [[|] c'].
    + intro H. destruct (IH _ _ _ H) as (-> & k1 & r1 & Hin & Hnone). eauto 6.
    + destruct (use_rule k r reg). discriminate.
  - intro H. destruct (IH _ _ _ H) as (-> & k1 & r1 & Hin & Hnone). eauto 6.
  - intros [= <-]. eauto 6.
Qed.

(** A matching item whose expiration is unset, or is not before any
    reading of the clock, makes the loop return when the matcher answers
    for the items before it. *)
Lemma dynamic_loop_lasting (time_time : nat -> Z) (u k : string)
    (r : DynamicProxiedURL) (pre post : list (string * DynamicProxiedURL))
    (reg : registry) :
  (forall k0 r0, In (k0, r0) pre -> urlmatch (url_pattern r0) u <> None) ->
  urlmatch (url_pattern r) u = Some true ->
  (expiration r = 0 \/ forall n, time_time n <= expiration r) ->
  forall (h : bool) (c : nat),
  exists p reg',
    dynamic_loop urlmatch time_time u (pre ++ (k, r) :: post) h c reg
    = Found p reg'.
Proof.
  intros Hpre Hm Hlast.
  induction pre as [|[k0 r0] pre IH]; intros h c; simpl.
  - rewrite Hm.
    destruct (expiration_passed time_time c r) as [[|] c'] eqn:Hp.
    + exfalso. revert Hp. unfold expiration_passed.
      destruct (Z.eqb_spec (expiration r) 0) as [Hz|Hnz]; [discriminate|].
      intros [= Hlt _]. apply Z.ltb_lt in Hlt.
      destruct Hlast as [Hz|Hall]; [contradiction|].
      specialize (Hall c). lia.
    + destruct (use_rule k r reg) as [r' reg1]. eauto.
  - assert (IH' : forall h c, exists p reg',
               dynamic_loop urlmatch time_time u (pre ++ (k, r) :: post) h c
                            reg = Found p reg').
    { apply IH. intros k1 r1 Hin. apply (Hpre k1 r1). now right. }
    destruct (urlmatch (url_pattern r0) u) as [[|]|] eqn:Hm0.
    + destruct (expiration_passed time_time c r0) as [[|] c'].
      * apply IH'.
      * destruct (use_rule k0 r0 reg) as [r' reg1]. eauto.
    + apply IH'.
    + exfalso. apply (Hpre k0 r0); [now left | exact Hm0].
Qed.

(** How a loop that runs out of items stands: without an expired match
    the matcher rejected every item; with one, the loop started with one
    or met a matching item whose expiration is set and before the reading
    taken for it. *)
Lemma dynamic_loop_exhausted (time_time : nat -> Z) (u : string)
    (items : list (string * DynamicProxiedURL)) (reg : registry) :
  forall (h : bool) (c : nat) (h' : bool),
    dynamic_loop urlmatch time_time u items h c reg = Exhausted h' ->
    (h' = false ->
     h = false /\ every_rule (rejects urlmatch u) items = true)
    /\ (h' = true ->
        h = true
        \/ exists k r n,
             In (k, r) items
             /\ urlmatch (url_pattern r) u = Some true
             /\ expiration r <> 0
             /\ expiration r < time_time n).
Proof.
  unfold every_rule, rejects, says.
  induction items as [|[k r] items IH]; intros h c h'; simpl.
  - intros [= <-]. split; auto.
  - destruct (urlmatch (url_pattern r) u) as [[|]|] eqn:Hm.
    + unfold expiration_passed.
      destruct (Z.eqb_spec (expiration r) 0) as [Hz|Hnz].
      * destruct (use_rule k r reg); discriminate.
      * destruct (Z.ltb_spec (expiration r) (time_time c)) as [Hlt|Hge].
        -- intro H. destruct (IH _ _ _ H) as [Hfalse Htrue]. split.
           ++ intro E. destruct (Hfalse E) as [Habs _]. discriminate.
           ++ intros _. right. exists k, r, c. auto.
        -- destruct (use_rule k r reg); discriminate.
    + intro H. destruct (IH _ _ _ H) as [Hfalse Htrue]. split.
      * exact Hfalse.
      * intro E. destruct (Htrue E) as [Hh|(k1 & r1 & n & Hin & Hrest)];
          [now left|].
        right. exists k1, r1, n. auto.
    + discriminate.
Qed.

(** X3. The view never authorizes a URL that nothing matches, whatever
    the clock reads: an answer carries the decoded [url] parameter, and
    either a stored dynamic rule matches it, with an expiration that is
    unset or not before a reading of the clock, and gives the SSL
    context, or a configured pattern matches it and the options give the
    SSL context. *)
Theorem authorized_only_by_match (time_time : nat -> Z) (options : Options)
    (request : Request) (reg : registry) (p : ProxiedURL)
    (Hok : fst (_get_proxied_url urlmatch unquote time_time options request reg)
           = Returned p) :
  exists q,
    query_get "url" (query request) = Some q
    /\ url p = unquote q
    /\ ((exists k r n,
            In (k, r) reg
            /\ urlmatch (url_pattern r) (unquote q) = Some true
            /\ (expiration r = 0 \/ time_time n <= expiration r)
            /\ ssl_context p
               = ssl_context_for (ssl_verification r) (ssl_ciphers r))
        \/ (exists pat,
               In pat (url_patterns_of options)
               /\ urlmatch pat (unquote q) = Some true
               /\ ssl_context p = options_context options)).
Proof.
  revert Hok. unfold _get_proxied_url.
  destruct (query_get "url" (query request)) as [q|]; [|discriminate].
  exists q. split; [reflexivity|].
  destruct (dynamic_loop urlmatch time_time (unquote q) (PyDict.items reg)
              false 0 reg) as [p0 reg'|seen|s] eqn:E.
  - simpl in Hok. injection Hok as ->.
    destruct (dynamic_loop_found_rule _ _ _ _ _ _ _ _ E)
      as (k & r & n & Hin & Hm & Hlast & ->).
    split; [reflexivity|]. left. exists k, r, n. auto.
  - destruct (static_loop urlmatch options (unquote q) (url_patterns_of options))
      as [[p0|]|s] eqn:Es.
    + simpl in Hok. injection Hok as ->.
      destruct (static_loop_found _ _ _ _ Es)
        as (pre & pat & post & Hpat & _ & Hm & ->).
      split; [reflexivity|]. right. exists pat.
      split; [rewrite Hpat; apply in_elt | auto].
    + destruct seen; discriminate.
    + discriminate.
  - discriminate.
Qed.

(** X4. A stored rule that matches the decoded URL and whose expiration is
    unset, or is not before any reading of the clock, gets the request
    authorized when the matcher raises on none of the rules stored before
    it; in particular a rule created with [time_to_live = 0] never stops
    authorizing because of time. *)
Theorem lasting_rule_authorizes (time_time : nat -> Z) (options : Options)
    (request : Request) (q k : string) (r : DynamicProxiedURL)
    (pre post : registry)
    (Hq : query_get "url" (query request) = Some q)
    (Hpre : forall k0 r0,
        In (k0, r0) pre -> urlmatch (url_pattern r0) (unquote q) <> None)
    (Hmatch : urlmatch (url_pattern r) (unquote q) = Some true)
    (Hlast : expiration r = 0 \/ forall n, time_time n <= expiration r) :
  exists p,
    fst (_get_proxied_url urlmatch unquote time_time options request
           (pre ++ (k, r) :: post))
    = Returned p.
Proof.
  unfold _get_proxied_url, PyDict.items. rewrite Hq.
  destruct (dynamic_loop_lasting time_time (unquote q) k r pre post
              (pre ++ (k, r) :: post) Hpre Hmatch Hlast false 0%nat)
    as (p & reg' & ->).
  exists p. reflexivity.
Qed.

(** X5. What a raise of the view means, whatever the clock reads. A
    request refused as expired carries a URL that some stored rule
    matches, with an expiration that is set and before a reading of the
    clock, and that the matcher rejects for every configured pattern. A
    request refused as not found carries no [url] parameter, or a URL
    that the matcher rejects for every stored rule and every configured
    pattern. The only other exception is the matcher's, raised on a
    stored rule or a configured pattern. *)
Theorem refusal_reasons (time_time : nat -> Z) (options : Options)
    (request : Request) (reg : registry) (e : exn)
    (Hrefused :
       fst (_get_proxied_url urlmatch unquote time_time options request reg)
       = Raised e) :
  (e = HASSProxyLibExpiredError ->
   exists q k r n,
     query_get "url" (query request) = Some q
     /\ In (k, r) reg
     /\ urlmatch (url_pattern r) (unquote q) = Some true
     /\ expiration r <> 0
     /\ expiration r < time_time n
     /\ no_static urlmatch (unquote q) (url_patterns_of options) = true)
  /\ (e = HASSProxyLibNotFoundRequestError ->
      query_get "url" (query request) = None
      \/ exists q,
           query_get "url" (query request) = Some q
           /\ every_rule (rejects urlmatch (unquote q)) reg = true
           /\ no_static urlmatch (unquote q) (url_patterns_of options)
              = true)
  /\ (e = HASSProxyLibExpiredError
      \/ e = HASSProxyLibNotFoundRequestError
      \/ (e = BadMatchPattern
          /\ exists q,
               query_get "url" (query request) = Some q
               /\ ((exists k r,
                       In (k, r) reg
                       /\ urlmatch (url_pattern r) (unquote q) = None)
                   \/ (exists pat,
                          In pat (url_patterns_of options)
                          /\ urlmatch pat (unquote q) = None)))).
Proof.
  revert Hrefused. unfold _get_proxied_url.
  destruct (query_get "url" (query request)) as [q|].
  - destruct (dynamic_loop urlmatch time_time (unquote q) (PyDict.items reg)
                false 0 reg) as [p0 reg'|seen|s] eqn:E; [discriminate| |].
    + destruct (static_loop urlmatch options (unquote q)
                  (url_patterns_of options)) as [[p0|]|s] eqn:Es;
        [discriminate| |].
      * apply static_loop_missed in Es.
        destruct (dynamic_loop_exhausted _ _ _ _ _ _ _ E) as [Hfalse Htrue].
        destruct seen; simpl; intros [= <-].
        -- split; [|split; [discriminate | now left]]. intros _.
           destruct (Htrue eq_refl)
             as [Habs|(k & r & n & Hin & Hm & Hset & Hlt)]; [discriminate|].
           exists q, k, r, n. auto 7.
        -- split; [discriminate|]. split; [|auto].
           intros _. right. exists q.
           destruct (Hfalse eq_refl) as [_ Hnone]. auto.
      * simpl. intros [= <-].
        destruct (static_loop_thrown _ _ _ _ Es) as (-> & pat & Hin & Hnone).
        split; [discriminate|]. split; [discriminate|].
        right. right. split; [reflexivity|]. exists q. eauto 6.
    + simpl. intros [= <-].
      destruct (dynamic_loop_thrown _ _ _ _ _ _ _ E)
        as (-> & k & r & Hin & Hnone).
      split; [discriminate|]. split; [discriminate|].
      right. right. split; [reflexivity|]. exists q. eauto 7.
  - simpl. intros [= <-]. split; [discriminate|].
    split; [intros _; now left | auto].
Qed.

(** *** What a request leaves behind *)

(** X6. A request touches at most one entry, whatever the clock reads:
    the registry it leaves is the one it found, or the one it found with
    a single limited rule either counted down by one where it stands or,
    when that was its last use, taken out. Nothing is added and nothing
    is reordered. *)
Theorem request_touches_one_entry (time_time : nat -> Z) (options : Options)
    (request : Request) (reg : registry) (Hwf : PyDict.wf reg) :
  let reg' :=
    snd (_get_proxied_url urlmatch unquote time_time options request reg) in
  reg' = reg
  \/ exists pre k r post,
       reg = pre ++ (k, r) :: post
       /\ open_limit r <> 0
       /\ ((open_limit r = 1 /\ reg' = pre ++ post)
           \/ (open_limit r <> 1
               /\ reg' = pre ++ (k, with_open_limit (open_limit r - 1) r)
                               :: post)).
Proof.
  intro reg'. subst reg'.
  destruct (get_proxied_url_registry time_time options request reg)
    as [E|(k & r & Hin & E)]; [now left|].
  rewrite E. clear E.
  destruct (in_split _ _ Hin) as (pre & post & ->).
  destruct (dict_wf_mid _ _ _ _ Hwf) as [Hk_pre _].
  rewrite use_rule_registry by assumption.
  destruct (Z.eqb_spec (open_limit r) 0) as [Hz|Hnz]; [now left|].
  right. exists pre, k, r, post. split; [reflexivity|]. split; [assumption|].
  destruct (Z.eqb_spec (open_limit r - 1) 0) as [Hone|Hmore].
  - left. split; [lia | reflexivity].
  - right. split; [lia | reflexivity].
Qed.

Lemma replay_app (now : Z) (options : Options) (request : Request)
    (a b : nat) :
  forall reg : registry,
    replay urlmatch unquote now options request (a + b) reg
    = (fst (replay urlmatch unquote now options request a reg)
       ++ fst (replay urlmatch unquote now options request b
                 (snd (replay urlmatch unquote now options request a reg))),
       snd (replay urlmatch unquote now options request b
              (snd (replay urlmatch unquote now options request a reg)))).
Proof.
  induction a as [|a IH]; intro reg.
  - simpl. now destruct (replay urlmatch unquote now options request b reg).
  - cbn [Nat.add replay].
    destruct (_get_proxied_url urlmatch unquote (steady now) options request reg)
      as [o reg1].
    rewrite IH.
    destruct (replay urlmatch unquote now options request a reg1) as [os reg2].
    reflexivity.
Qed.

Lemma replay_S (now : Z) (options : Options) (request : Request) (n : nat)
    (reg : registry) :
  replay urlmatch unquote now options request (S n) reg
  = (fst (_get_proxied_url urlmatch unquote (steady now) options request reg)
     :: fst (replay urlmatch unquote now options request n
               (snd (_get_proxied_url urlmatch unquote (steady now) options
                       request reg))),
     snd (replay urlmatch unquote now options request n
            (snd (_get_proxied_url urlmatch unquote (steady now) options
                    request reg)))).
Proof.
  cbn [replay].
  destruct (_get_proxied_url urlmatch unquote (steady now) options request reg)
    as [o reg1].
  cbn [fst snd].
  now destruct (replay urlmatch unquote now options request n reg1).
Qed.

(** A request the matcher finds to match nothing is refused as not found
    every time. *)
Lemma replay_unmatched (now : Z) (options : Options) (request : Request)
    (q : string) (reg : registry) (m : nat) :
  query_get "url" (query request) = Some q ->
  every_rule (rejects urlmatch (unquote q)) reg = true ->
  no_static urlmatch (unquote q) (url_patterns_of options) = true ->
  replay urlmatch unquote now options request m reg
  = (repeat (Raised HASSProxyLibNotFoundRequestError) m, reg).
Proof.
  intros Hq Hnone Hsta.
  assert (Hna : every_rule (passes urlmatch now (unquote q)) reg = true).
  { apply (every_rule_weaken (rejects urlmatch (unquote q))); [|assumption].
    intros r. apply rejects_passes. }
  assert (Hnx : any_rule (expired_match urlmatch now (unquote q)) reg = false).
  { apply (every_rule_excludes (rejects urlmatch (unquote q))); [|assumption].
    intros r. apply rejects_not_expired_match. }
  induction m as [|m IH]; [reflexivity|].
  cbn [replay repeat].
  rewrite (decision_refused now options request q reg) by assumption.
  now rewrite Hnx, IH.
Qed.

(** A rule with [S n] uses left, first among the rules that authorize,
    serves [S n] requests and is gone. *)
Lemma replay_limited (now : Z) (options : Options) (request : Request)
    (q k : string) (pre post : registry) (n : nat) :
  query_get "url" (query request) = Some q ->
  every_rule (passes urlmatch now (unquote q)) pre = true ->
  ~ In k (PyDict.keys pre) ->
  forall r : DynamicProxiedURL,
    authorizes urlmatch now (unquote q) r = true ->
    open_limit r = Z.of_nat (S n) ->
    replay urlmatch unquote now options request (S n) (pre ++ (k, r) :: post)
    = (repeat (Returned
                 {| url := unquote q;
                    ssl_context :=
                      ssl_context_for (ssl_verification r) (ssl_ciphers r) |})
              (S n),
       pre ++ post).
Proof.
  intros Hq Hpre Hk.
  induction n as [|n IH]; intros r Hr Hlimit.
  - rewrite replay_S.
    rewrite (decision_dynamic now options request q k r pre post) by assumption.
    rewrite use_rule_registry by assumption.
    rewrite Hlimit. reflexivity.
  - rewrite replay_S.
    rewrite (decision_dynamic now options request q k r pre post) by assumption.
    rewrite use_rule_registry by assumption.
    destruct (Z.eqb_spec (open_limit r) 0) as [Hz|_]; [lia|].
    destruct (Z.eqb_spec (open_limit r - 1) 0) as [Hz|_]; [lia|].
    cbn [fst snd].
    rewrite (IH (with_open_limit (open_limit r - 1) r)).
    + reflexivity.
    + exact Hr.
    + simpl. lia.
Qed.

(** X7. A rule with [open_limit = n > 0] that is the first to authorize a
    request, the matcher answering for the rules before it, serves that
    request exactly [n] times in a row and is then gone from the
    registry, the other entries staying as they were. When the matcher
    rejects the URL for every other rule and every configured pattern,
    every further request is refused as not found, not as expired. *)
Theorem use_limit_exhaustion (now : Z) (options : Options) (request : Request)
    (q k : string) (r : DynamicProxiedURL) (pre post : registry) (n : nat)
    (Hwf : PyDict.wf (pre ++ (k, r) :: post))
    (Hq : query_get "url" (query request) = Some q)
    (Hpre : every_rule (passes urlmatch now (unquote q)) pre = true)
    (Hr : authorizes urlmatch now (unquote q) r = true)
    (Hlimit : open_limit r = Z.of_nat (S n)) :
  let answer :=
    Returned {| url := unquote q;
                ssl_context :=
                  ssl_context_for (ssl_verification r) (ssl_ciphers r) |} in
  replay urlmatch unquote now options request (S n) (pre ++ (k, r) :: post)
  = (repeat answer (S n), pre ++ post)
  /\ (every_rule (rejects urlmatch (unquote q)) (pre ++ post) = true ->
      no_static urlmatch (unquote q) (url_patterns_of options) = true ->
      forall m : nat,
        replay urlmatch unquote now options request (S n + m)
               (pre ++ (k, r) :: post)
        = (repeat answer (S n)
           ++ repeat (Raised HASSProxyLibNotFoundRequestError) m,
           pre ++ post)).
Proof.
  intro answer.
  destruct (dict_wf_mid _ _ _ _ Hwf) as [Hk_pre _].
  pose proof (replay_limited now options request q k pre post n Hq Hpre Hk_pre
                r Hr Hlimit) as Hserved.
  split; [exact Hserved|].
  intros Hnone Hsta m.
  rewrite replay_app, Hserved. cbn [fst snd].
  now rewrite (replay_unmatched now options request q (pre ++ post) m).
Qed.

(** *** From creation to expiry *)

(** X8. The life of a one-use rule with a time to live, created at a time
    [now >= 0] under a new id in a registry whose rules the matcher all
    rejects for the URL. A request up to and including the time
    [now + time_to_live] is authorized under the SSL settings of the
    call, verifying when [ssl_verification] is true and not verifying
    when it is false, and uses the rule up: the registry is again the one
    from before the call. A request after that time, when the matcher
    rejects every configured pattern too, is refused as expired and the
    rule stays stored. *)
Theorem created_rule_lifetime (uuid4 : string) (now t : Z) (call : CreateCall)
    (options : Options) (request : Request) (q : string) (reg : registry)
    (Hq : query_get "url" (query request) = Some q)
    (Hnew : ~ In (create_url_id uuid4 call) (PyDict.keys reg))
    (Hnone : every_rule (rejects urlmatch (unquote q)) reg = true)
    (Hmatch : urlmatch (call_url_pattern call) (unquote q) = Some true)
    (Hone : call_open_limit call = 1)
    (Httl : 0 < call_time_to_live call)
    (Hnow : 0 <= now) :
  let created := create_proxied_url uuid4 now call reg in
  let ciphers := _proxy_ssl_cipher_to_ha_ssl_cipher (call_ssl_ciphers call) in
  (t <= now + call_time_to_live call ->
   _get_proxied_url urlmatch unquote (steady t) options request created
   = (Returned {| url := unquote q;
                  ssl_context :=
                    if call_ssl_verification call
                    then client_context ciphers
                    else client_context_no_verify ciphers |},
      reg))
  /\ (now + call_time_to_live call < t ->
      no_static urlmatch (unquote q) (url_patterns_of options) = true ->
      _get_proxied_url urlmatch unquote (steady t) options request created
      = (Raised HASSProxyLibExpiredError, created)).
Proof.
  intros created ciphers. subst created ciphers. unfold create_proxied_url.
  set (url_id := create_url_id uuid4 call) in *.
  destruct (Z.eqb_spec (call_time_to_live call) 0) as [Hz|_]; [lia|].
  set (entry := {| url_pattern := call_url_pattern call;
                   ssl_verification := call_ssl_verification call;
                   ssl_ciphers := call_ssl_ciphers call;
                   open_limit := call_open_limit call;
                   expiration := now + call_time_to_live call |}).
  rewrite dict_set_fresh by assumption.
  assert (Hna : every_rule (passes urlmatch t (unquote q)) reg = true).
  { apply (every_rule_weaken (rejects urlmatch (unquote q))); [|assumption].
    intros r. apply rejects_passes. }
  assert (Hset : (expiration entry =? 0) = false).
  { apply Z.eqb_neq. simpl. lia. }
  assert (Hm : matches urlmatch (unquote q) entry = true).
  { unfold matches, says. simpl url_pattern. now rewrite Hmatch. }
  split.
  - intro Hle.
    assert (Hr : authorizes urlmatch t (unquote q) entry = true).
    { unfold authorizes, is_expired. rewrite Hm, Hset. simpl.
      apply negb_true_iff. apply Z.ltb_ge. exact Hle. }
    rewrite (decision_dynamic t options request q url_id entry reg [])
      by assumption.
    rewrite use_rule_registry by assumption.
    simpl open_limit. rewrite Hone. simpl. rewrite app_nil_r.
    unfold ssl_context_for, _get_ssl_context, _get_ssl_context_no_verify.
    reflexivity.
  - intros Hlt Hsta.
    assert (Hx : expired_match urlmatch t (unquote q) entry = true).
    { unfold expired_match, is_expired. rewrite Hm, Hset. simpl.
      apply Z.ltb_lt. exact Hlt. }
    assert (Hall : every_rule (passes urlmatch t (unquote q))
                              (reg ++ [(url_id, entry)]) = true).
    { rewrite every_rule_app, Hna. unfold every_rule, passes. simpl.
      now rewrite Hx, orb_true_r. }
    rewrite (decision_refused t options request q) by assumption.
    rewrite any_rule_app. unfold any_rule at 2. simpl.
    now rewrite Hx, orb_true_r.
Qed.

(** X9. A rule that [create_proxied_url] has just stored gets a matching
    request authorized, whatever the id and the open limit, at every time
    [t] up to and including [now + time_to_live], and at every time at
    all when [time_to_live = 0], provided the matcher raises on none of
    the rules the registry held before. *)
Theorem created_rule_authorizes (uuid4 : string) (now t : Z) (call : CreateCall)
    (options : Options) (request : Request) (q : string) (reg : registry)
    (Hq : query_get "url" (query request) = Some q)
    (Hrules : forall k r,
        In (k, r) reg -> urlmatch (url_pattern r) (unquote q) <> None)
    (Hmatch : urlmatch (call_url_pattern call) (unquote q) = Some true)
    (Hlive : call_time_to_live call = 0
             \/ t <= now + call_time_to_live call) :
  exists p,
    fst (_get_proxied_url urlmatch unquote (steady t) options request
           (create_proxied_url uuid4 now call reg))
    = Returned p.
Proof.
  unfold _get_proxied_url. rewrite Hq.
  set (created := create_proxied_url uuid4 now call reg).
  set (entry := {| url_pattern := call_url_pattern call;
                   ssl_verification := call_ssl_verification call;
                   ssl_ciphers := call_ssl_ciphers call;
                   open_limit := call_open_limit call;
                   expiration :=
                     if call_time_to_live call =? 0 then 0
                     else now + call_time_to_live call |}).
  assert (Hin : In (create_url_id uuid4 call, entry) created).
  { apply dict_get_Some_In. apply dict_get_set_eq. }
  destruct (in_split _ _ Hin) as (pre & post & Hsplit).
  unfold PyDict.items. rewrite Hsplit.
  destruct (dynamic_loop_lasting (steady t) (unquote q)
              (create_url_id uuid4 call) entry pre post
              (pre ++ (create_url_id uuid4 call, entry) :: post))
    with (h := false) (c := 0%nat) as (p & reg' & ->).
  - intros k0 r0 Hin0.
    assert (Hc : In (k0, r0) created).
    { rewrite Hsplit. apply in_or_app. now left. }
    apply dict_In_set in Hc as [[= -> ->]|Hc].
    + simpl. congruence.
    + now apply (Hrules k0 r0).
  - exact Hmatch.
  - simpl. unfold steady.
    destruct (Z.eqb_spec (call_time_to_live call) 0) as [Hz|Hnz]; [now left|].
    right. intros _. lia.
  - exists p. reflexivity.
Qed.

(** At an earlier time the loop stops no later: it returns where it
    returned, and where it ran out of items it returns or runs out. *)
Lemma dynamic_loop_earlier (now earlier : Z) (u : string)
    (items : list (string * DynamicProxiedURL)) (reg : registry) :
  earlier <= now ->
  forall (h h' : bool) (c c' : nat),
    match dynamic_loop urlmatch (steady now) u items h c reg with
    | Found _ _ =>
        exists p reg',
          dynamic_loop urlmatch (steady earlier) u items h' c' reg
          = Found p reg'
    | Exhausted _ =>
        forall e,
          dynamic_loop urlmatch (steady earlier) u items h' c' reg
          <> Thrown e
    | Thrown _ => True
    end.
Proof.
  intro Hle.
  induction items as [|[k r] items IH]; intros h h' c c'; simpl.
  - discriminate.
  - destruct (urlmatch (url_pattern r) u) as [[|]|]; [| apply IH | exact I].
    unfold expiration_passed, steady.
    destruct (Z.eqb_spec (expiration r) 0) as [Hz|Hnz].
    + destruct (use_rule k r reg) as [r' reg1]. eauto.
    + destruct (Z.ltb_spec (expiration r) now) as [Hlt|Hge].
      * destruct (Z.ltb_spec (expiration r) earlier) as [Hlt'|Hge'].
        -- apply IH.
        -- destruct (use_rule k r reg) as [r' reg1].
           destruct (dynamic_loop urlmatch (fun _ => now) u items true
                       (S c) reg); eauto; discriminate.
      * destruct (Z.ltb_spec (expiration r) earlier) as [Hlt'|Hge']; [lia|].
        destruct (use_rule k r reg) as [r' reg1]. eauto.
Qed.

(** X10. Waiting never helps: on one and the same registry, a request that
    is authorized at some time is authorized at every earlier time. *)
Theorem authorized_earlier (now earlier : Z) (options : Options)
    (request : Request) (reg : registry) (p : ProxiedURL)
    (Hle : earlier <= now)
    (Hok : fst (_get_proxied_url urlmatch unquote (steady now) options request
                  reg)
           = Returned p) :
  exists p',
    fst (_get_proxied_url urlmatch unquote (steady earlier) options request reg)
    = Returned p'.
Proof.
  revert Hok. unfold _get_proxied_url.
  destruct (query_get "url" (query request)) as [q|]; [|discriminate].
  pose proof (dynamic_loop_earlier now earlier (unquote q) (PyDict.items reg)
                reg Hle false false 0%nat 0%nat) as Hearlier.
  destruct (dynamic_loop urlmatch (steady now) (unquote q) (PyDict.items reg)
              false 0 reg) as [p0 reg0|seen|s].
  - intros _. destruct Hearlier as (p1 & reg1 & ->). exists p1. reflexivity.
  - destruct (static_loop urlmatch options (unquote q) (url_patterns_of options))
      as [[p0|]|s].
    + intros _.
      destruct (dynamic_loop urlmatch (steady earlier) (unquote q)
                  (PyDict.items reg) false 0 reg) as [p1 reg1|seen'|s].
      * exists p1. reflexivity.
      * exists p0. reflexivity.
      * exfalso. now apply (Hearlier s).
    + destruct seen; discriminate.
    + discriminate.
  - discriminate.
Qed.

(** *** Dynamic URLs switched off *)

Lemma get_proxied_url_empty (time_time : nat -> Z) (options : Options)
    (request : Request) :
  snd (_get_proxied_url urlmatch unquote time_time options request PyDict.empty)
  = PyDict.empty.
Proof.
  destruct (get_proxied_url_registry time_time options request PyDict.empty)
    as [E|(k & r & [] & _)].
  exact E.
Qed.

(** X11. When the options do not enable [dynamic_urls] the two services
    are not there: the registry stays empty through every history, no
    request is ever refused as expired, and a request is authorized
    exactly when it carries a URL that some configured pattern matches,
    the matcher rejecting the patterns declared before it. *)
Theorem dynamic_urls_disabled (options : Options) (history : list event)
    (Hoff : opt_dynamic_urls options = false) :
  run urlmatch unquote options history = PyDict.empty
  /\ forall (request : Request) (time_time : nat -> Z),
       let result :=
         _get_proxied_url urlmatch unquote time_time options request
                          (run urlmatch unquote options history) in
       fst result <> Raised HASSProxyLibExpiredError
       /\ ((exists p, fst result = Returned p)
           <-> exists q pre pat post,
                 query_get "url" (query request) = Some q
                 /\ url_patterns_of options = pre ++ pat :: post
                 /\ no_static urlmatch (unquote q) pre = true
                 /\ urlmatch pat (unquote q) = Some true).
Proof.
  assert (Hempty : run urlmatch unquote options history = PyDict.empty).
  { unfold run. induction history as [|ev history IH]; [reflexivity|].
    simpl. replace (handle urlmatch unquote options PyDict.empty ev)
      with (@PyDict.empty DynamicProxiedURL); [exact IH|].
    destruct ev as [call uuid4 now|url_id|request time_time]; simpl.
    - now rewrite Hoff.
    - now rewrite Hoff.
    - symmetry. apply get_proxied_url_empty. }
  split; [exact Hempty|].
  intros request time_time. rewrite Hempty. unfold _get_proxied_url.
  destruct (query_get "url" (query request)) as [q|]; simpl.
  - destruct (static_loop urlmatch options (unquote q) (url_patterns_of options))
      as [[p|]|s] eqn:Es; simpl.
    + split; [discriminate|]. split; [|eauto].
      intros _.
      destruct (static_loop_found _ _ _ _ Es)
        as (pre & pat & post & Hpat & Hpre & Hm & _).
      exists q, pre, pat, post. auto.
    + split; [discriminate|].
      split; [intros [p Hp]; discriminate|].
      intros (q' & pre & pat & post & [= <-] & Hpat & Hpre & Hm).
      rewrite Hpat, (static_loop_first options (unquote q) pat pre post)
        in Es by assumption.
      discriminate.
    + destruct (static_loop_thrown _ _ _ _ Es) as (-> & _).
      split; [discriminate|].
      split; [intros [p Hp]; discriminate|].
      intros (q' & pre & pat & post & [= <-] & Hpat & Hpre & Hm).
      rewrite Hpat, (static_loop_first options (unquote q) pat pre post)
        in Es by assumption.
      discriminate.
  - split; [discriminate|].
    split; [intros [p Hp]; discriminate|].
    intros (q & pre & pat & post & Hq & _). discriminate.
Qed.

(** *** A pattern the matcher refuses *)

(** X12. The view does not catch the matcher's exception. When the first
    stored rule the scan does not go past is one whose pattern the
    matcher raises on, the request ends in [BadMatchPattern], whatever
    rules and patterns come after it, and likewise, past all the dynamic
    rules, at the first configured pattern that the matcher does not
    reject; the registry is left as it was. *)
Theorem malformed_pattern_blocks (now : Z) (options : Options)
    (request : Request) (q : string) (reg : registry)
    (Hq : query_get "url" (query request) = Some q) :
  let u := unquote q in
  let result :=
    _get_proxied_url urlmatch unquote (steady now) options request reg in
  (forall pre k r post,
      reg = pre ++ (k, r) :: post ->
      every_rule (passes urlmatch now u) pre = true ->
      urlmatch (url_pattern r) u = None ->
      result = (Raised BadMatchPattern, reg))
  /\ (forall pre p post,
         every_rule (passes urlmatch now u) reg = true ->
         url_patterns_of options = pre ++ p :: post ->
         no_static urlmatch u pre = true ->
         urlmatch p u = None ->
         result = (Raised BadMatchPattern, reg)).
Proof.
  intros u result. subst u result. split.
  - intros pre k r post -> Hpre Hr.
    now apply (decision_dynamic_thrown now options request q k r pre post).
  - intros pre p post Hall Hpat Hpre Hp.
    now apply (decision_static_thrown now options request q p reg pre post).
Qed.

End Decision.

(** ** Examples *)

(** The examples run the view with [scheme_wildcard] for the matcher and
    [plain] for the decoder, at time [100], on [Demo.rules] unless said
    otherwise. *)

Lemma demo_rules_wf : PyDict.wf Demo.rules.
Proof.
  unfold PyDict.wf, Demo.rules. simpl.
  repeat constructor; simpl; intuition discriminate.
Qed.

Lemma demo_rules_answered (u : string) (k : string) (r : DynamicProxiedURL) :
  In (k, r) Demo.rules -> scheme_wildcard (url_pattern r) u <> None.
Proof.
  intros [[= <- <-]|[[= <- <-]|[[= <- <-]|[]]]]; discriminate.
Qed.

(** The lapsed rule ["a"] comes first and is passed over; ["b"] decides
    and loses one use. *)
Lemma authorization_decision_witness :
  _get_proxied_url scheme_wildcard plain (steady 100) Demo.options
                   Demo.request Demo.rules
  = (Returned {| url := "https://example.com/foo?x=1";
                 ssl_context :=
                   client_context_no_verify (verbatim (Some "modern")) |},
     [("a", Demo.lapsed); ("b", Demo.good 1); ("c", Demo.other)]).
Proof.
  destruct (authorization_decision scheme_wildcard plain 100 Demo.options
              Demo.request "https://example.com/foo?x=1" Demo.rules eq_refl)
    as (_ & Hfirst & _).
  exact (Hfirst [("a", Demo.lapsed)] "b" (Demo.good 2) [("c", Demo.other)]
                eq_refl eq_refl eq_refl).
Defined.

(** C1, counterexample. Two calls the schema accepts store a rule whose
    pattern lacks the scheme and, after it, an unlimited rule for
    [https://example.com/*]. At time 1001 the second rule matches the
    requested URL and has not expired, yet the request is not authorized:
    the matcher raises on the first rule and the view lets the exception
    through. *)
Lemma malformed_rule_blocks_valid_rule :
  let reg := run scheme_wildcard plain Demo.options Demo.blocked_history in
  CREATE_PROXIED_URL_SCHEMA Demo.malformed_call = true
  /\ CREATE_PROXIED_URL_SCHEMA Demo.unlimited_call = true
  /\ any_rule (authorizes scheme_wildcard 1001 "https://example.com/foo?x=1")
              reg
     = true
  /\ _get_proxied_url scheme_wildcard plain (steady 1001) Demo.options
                      Demo.request reg
     = (Raised BadMatchPattern, reg)
  /\ ~ (forall (urlmatch : string -> string -> option bool)
               (unquote : string -> string) (now : Z) (options : Options)
               (request : Request) (q : string) (proxied_urls : registry),
           query_get "url" (query request) = Some q ->
           any_rule (authorizes urlmatch now (unquote q)) proxied_urls = true
           \/ any_static urlmatch (unquote q) (url_patterns_of options) = true ->
           exists p,
             fst (_get_proxied_url urlmatch unquote (steady now) options
                    request proxied_urls)
             = Returned p).
Proof.
  intro reg.
  split; [reflexivity|]. split; [reflexivity|]. split; [reflexivity|].
  split; [reflexivity|].
  intro Hclaim.
  destruct (Hclaim scheme_wildcard plain 1001 Demo.options Demo.request
                   "https://example.com/foo?x=1" reg eq_refl
                   (or_introl eq_refl)) as [p Hp].
  discriminate Hp.
Qed.

(** C2, counterexample. A call with [open_limit = 0] passes the schema
    and its rule is stored with open limit [0]: a reachable registry
    holds an entry whose open limit is zero. *)
Lemma unlimited_rule_is_stored_with_zero :
  CREATE_PROXIED_URL_SCHEMA Demo.unlimited_call = true
  /\ PyDict.get "cam"
       (run scheme_wildcard plain Demo.options Demo.unlimited_history)
     = Some {| url_pattern := "https://example.com/*";
               ssl_verification := true;
               ssl_ciphers := Some "default";
               open_limit := 0;
               expiration := 1060 |}
  /\ ~ (forall (urlmatch : string -> string -> option bool)
               (unquote : string -> string) (options : Options)
               (history : list event) (k : string) (r : DynamicProxiedURL),
           PyDict.get k (run urlmatch unquote options history) = Some r ->
           open_limit r <> 0).
Proof.
  split; [reflexivity|]. split; [reflexivity|].
  intro Hnever.
  apply (Hnever scheme_wildcard plain Demo.options Demo.unlimited_history
                "cam"
                {| url_pattern := "https://example.com/*";
                   ssl_verification := true;
                   ssl_ciphers := Some "default";
                   open_limit := 0;
                   expiration := 1060 |});
    reflexivity.
Qed.

(** A rule created for two uses and used once is stored with one use. *)
Lemma open_limit_over_time_witness :
  Forall limited Demo.history
  /\ forall k r,
       PyDict.get k (run scheme_wildcard plain Demo.options Demo.history)
       = Some r ->
       0 < open_limit r.
Proof.
  assert (Hlimited : Forall limited Demo.history).
  { unfold Demo.history. repeat constructor. simpl. lia. }
  split; [exact Hlimited|].
  destruct (open_limit_over_time scheme_wildcard plain Demo.options
              Demo.history)
    as (_ & Hpositive & _).
  exact (Hpositive Hlimited).
Defined.

Lemma authorizing_rule_bookkeeping_witness :
  snd (_get_proxied_url scheme_wildcard plain (steady 100) Demo.options
                        Demo.request Demo.rules)
  = [("a", Demo.lapsed); ("b", Demo.good 1); ("c", Demo.other)].
Proof.
  destruct (authorizing_rule_bookkeeping scheme_wildcard plain 100
              Demo.options Demo.request "https://example.com/foo?x=1" "b"
              (Demo.good 2) [("a", Demo.lapsed)] [("c", Demo.other)]
              demo_rules_wf eq_refl eq_refl eq_refl)
    as (_ & Hlimited & _).
  assert (Hpos : 0 < open_limit (Demo.good 2)) by (simpl; lia).
  destruct (Hlimited Hpos) as (Hdown & _).
  assert (Hleft : open_limit (Demo.good 2) - 1 <> 0) by (simpl; lia).
  exact (proj1 (Hdown Hleft)).
Defined.

Lemma expired_rule_never_authorizes_witness :
  PyDict.get "a"
    (snd (_get_proxied_url scheme_wildcard plain (steady 100) Demo.options
                           Demo.request Demo.rules))
  = Some Demo.lapsed.
Proof.
  assert (Hset : expiration Demo.lapsed <> 0) by (simpl; lia).
  assert (Hpast : expiration Demo.lapsed < 100) by (simpl; lia).
  destruct (expired_rule_never_authorizes scheme_wildcard plain 100
              Demo.options Demo.request "https://example.com/foo?x=1" "a"
              Demo.lapsed Demo.rules demo_rules_wf eq_refl
              (or_introl eq_refl) eq_refl Hset Hpast)
    as (Hkept & _).
  exact Hkept.
Defined.

(** Creating under the id ["cam"], which is taken, keeps the keys. *)
Lemma create_proxied_url_entry_witness :
  PyDict.keys (create_proxied_url "7f3c" 1000 Demo.unlimited_call
                 [("cam", Demo.other); ("b", Demo.good 2)])
  = ["cam"; "b"].
Proof.
  assert (Hwf : PyDict.wf [("cam", Demo.other); ("b", Demo.good 2)]).
  { unfold PyDict.wf. simpl. repeat constructor; simpl; intuition discriminate. }
  destruct (create_proxied_url_entry "7f3c" 1000 Demo.unlimited_call
              [("cam", Demo.other); ("b", Demo.good 2)] Hwf)
    as (_ & _ & Hsupplied & _).
  assert (Hne : "cam" <> "") by discriminate.
  destruct (Hsupplied "cam" eq_refl Hne) as (_ & Htaken).
  exact (proj1 (Htaken (or_introl eq_refl))).
Defined.

Lemma delete_proxied_url_result_witness :
  PyDict.get "b" (snd (delete_proxied_url "b" Demo.rules)) = None.
Proof.
  destruct (delete_proxied_url_result scheme_wildcard plain 100 Demo.options
              "b" Demo.rules demo_rules_wf)
    as (_ & _ & _ & Hpresent).
  exact (proj1 (Hpresent (or_intror (or_introl eq_refl)))).
Defined.

(** C7, counterexample. One call the schema accepts stores a rule whose
    pattern lacks the scheme. No dynamic rule authorizes the request and
    the second configured pattern matches its URL, yet the request is
    not authorized: the matcher raises on the stored rule before the
    configured patterns are tried. *)
Lemma malformed_rule_blocks_static_fallback :
  let reg :=
    run scheme_wildcard plain Demo.options
        [CreateProxiedURL Demo.malformed_call "7f3c" 1000] in
  reg = [("bad", Demo.malformed)]
  /\ any_rule (authorizes scheme_wildcard 1001 "https://example.com/foo?x=1")
              reg
     = false
  /\ url_patterns_of Demo.options
     = ["https://static.net/*"] ++ "https://example.com/*" :: []
  /\ any_static scheme_wildcard "https://example.com/foo?x=1"
                ["https://static.net/*"]
     = false
  /\ scheme_wildcard "https://example.com/*" "https://example.com/foo?x=1"
     = Some true
  /\ _get_proxied_url scheme_wildcard plain (steady 1001) Demo.options
                      Demo.request reg
     = (Raised BadMatchPattern, reg)
  /\ ~ (forall (urlmatch : string -> string -> option bool)
               (unquote : string -> string) (now : Z) (options : Options)
               (request : Request) (q p : string) (proxied_urls : registry)
               (pre post : list string),
           query_get "url" (query request) = Some q ->
           any_rule (authorizes urlmatch now (unquote q)) proxied_urls
           = false ->
           url_patterns_of options = pre ++ p :: post ->
           any_static urlmatch (unquote q) pre = false ->
           urlmatch p (unquote q) = Some true ->
           exists answer,
             fst (_get_proxied_url urlmatch unquote (steady now) options
                    request proxied_urls)
             = Returned answer).
Proof.
  intro reg.
  split; [reflexivity|]. split; [reflexivity|]. split; [reflexivity|].
  split; [reflexivity|]. split; [reflexivity|]. split; [reflexivity|].
  intro Hclaim.
  destruct (Hclaim scheme_wildcard plain 1001 Demo.options Demo.request
                   "https://example.com/foo?x=1" "https://example.com/*" reg
                   ["https://static.net/*"] [] eq_refl eq_refl eq_refl
                   eq_refl eq_refl) as [answer Hanswer].
  discriminate Hanswer.
Qed.

(** With an empty registry the second configured pattern matches; the
    options switch verification off. *)
Lemma static_fallback_witness :
  _get_proxied_url scheme_wildcard plain (steady 100) Demo.lax_options
                   Demo.request []
  = (Returned {| url := "https://example.com/foo?x=1";
                 ssl_context :=
                   client_context_no_verify
                     (verbatim (Some "intermediate")) |},
     []).
Proof.
  destruct (static_fallback scheme_wildcard plain 100 Demo.lax_options
              Demo.request "https://example.com/foo?x=1"
              "https://example.com/*" [] ["https://static.net/*"] []
              eq_refl eq_refl eq_refl eq_refl eq_refl)
    as (Hone & _).
  exact Hone.
Defined.

(** Only the lapsed rule matches: the request is refused as expired. *)
Lemma refusal_keeps_registry_witness :
  snd (_get_proxied_url scheme_wildcard plain (steady 100) Demo.no_options
                        Demo.request [("a", Demo.lapsed)])
  = [("a", Demo.lapsed)].
Proof.
  destruct (refusal_keeps_registry scheme_wildcard plain (steady 100)
              Demo.no_options Demo.request [("a", Demo.lapsed)]
              HASSProxyLibExpiredError eq_refl)
    as (Hsame & _).
  exact Hsame.
Defined.

Lemma missing_url_parameter_witness :
  _get_proxied_url scheme_wildcard plain (steady 100) Demo.options
                   Demo.bare_request Demo.rules
  = (Raised HASSProxyLibNotFoundRequestError, Demo.rules).
Proof.
  exact (missing_url_parameter scheme_wildcard plain (steady 100) Demo.options
           Demo.bare_request Demo.rules eq_refl).
Defined.

Lemma ssl_context_resolution_witness :
  _proxy_ssl_cipher_to_ha_ssl_cipher (Some "modern") = verbatim (Some "modern").
Proof.
  destruct (ssl_context_resolution (Some "modern")) as (_ & Hother & _).
  apply Hother. discriminate.
Defined.

(** ** Further examples *)

(** A call without an id stores under the generated one; deleting that id
    gives back the three rules. *)
Lemma create_then_delete_witness :
  delete_proxied_url "7f3c"
    (create_proxied_url "7f3c" 1000 Demo.anonymous_call Demo.rules)
  = (Returned tt, Demo.rules).
Proof.
  destruct (create_then_delete "7f3c" 1000 Demo.anonymous_call Demo.rules)
    as [_ Hnew].
  apply Hnew. simpl. intuition discriminate.
Defined.

Lemma delete_twice_witness :
  delete_proxied_url "b" (snd (delete_proxied_url "b" Demo.rules))
  = (Raised (ServiceValidationError "url_id_not_found" "b"),
     [("a", Demo.lapsed); ("c", Demo.other)]).
Proof.
  exact (delete_twice "b" Demo.rules demo_rules_wf).
Defined.

Lemma authorized_only_by_match_witness :
  exists q,
    query_get "url" (query Demo.request) = Some q
    /\ "https://example.com/foo?x=1" = plain q.
Proof.
  destruct (authorized_only_by_match scheme_wildcard plain (steady 100)
              Demo.options Demo.request Demo.rules
              {| url := "https://example.com/foo?x=1";
                 ssl_context :=
                   client_context_no_verify (verbatim (Some "modern")) |}
              eq_refl)
    as (q & Hq & Hurl & _).
  exists q. split; [exact Hq | exact Hurl].
Defined.

(** The rule ["c"] has no expiration: it authorizes however far the clock
    has run. *)
Lemma lasting_rule_authorizes_witness :
  exists p,
    fst (_get_proxied_url scheme_wildcard plain (fun n => 1000 * Z.of_nat n)
           Demo.options {| query := [("url", "https://other.org/cam")] |}
           Demo.rules)
    = Returned p.
Proof.
  assert (Hpre : forall k0 r0,
             In (k0, r0) [("a", Demo.lapsed); ("b", Demo.good 2)] ->
             scheme_wildcard (url_pattern r0) (plain "https://other.org/cam")
             <> None).
  { intros k0 r0 Hin. apply (demo_rules_answered _ k0).
    unfold Demo.rules. simpl in *. tauto. }
  exact (lasting_rule_authorizes scheme_wildcard plain
           (fun n => 1000 * Z.of_nat n) Demo.options
           {| query := [("url", "https://other.org/cam")] |}
           "https://other.org/cam" "c" Demo.other
           [("a", Demo.lapsed); ("b", Demo.good 2)] []
           eq_refl Hpre eq_refl (or_introl eq_refl)).
Defined.

(** Refused as expired: the lapsed rule is the reason. *)
Lemma refusal_reasons_witness :
  exists k r n,
    In (k, r) [("a", Demo.lapsed)]
    /\ expiration r <> 0
    /\ expiration r < steady 100 n.
Proof.
  destruct (refusal_reasons scheme_wildcard plain (steady 100) Demo.no_options
              Demo.request [("a", Demo.lapsed)] HASSProxyLibExpiredError
              eq_refl)
    as (Hexpired & _ & _).
  destruct (Hexpired eq_refl) as (q & k & r & n & _ & Hin & _ & Hset & Hlt & _).
  exists k, r, n. auto.
Defined.

Lemma request_touches_one_entry_witness :
  snd (_get_proxied_url scheme_wildcard plain (steady 100) Demo.options
         Demo.request Demo.rules)
  = Demo.rules
  \/ exists pre k r post,
       Demo.rules = pre ++ (k, r) :: post
       /\ open_limit r <> 0
       /\ ((open_limit r = 1
            /\ snd (_get_proxied_url scheme_wildcard plain (steady 100)
                      Demo.options Demo.request Demo.rules)
               = pre ++ post)
           \/ (open_limit r <> 1
               /\ snd (_get_proxied_url scheme_wildcard plain (steady 100)
                         Demo.options Demo.request Demo.rules)
                  = pre ++ (k, with_open_limit (open_limit r - 1) r) :: post)).
Proof.
  exact (request_touches_one_entry scheme_wildcard plain (steady 100)
           Demo.options Demo.request Demo.rules demo_rules_wf).
Defined.

(** The rule ["b"] has two uses: two requests are served, and it is gone. *)
Lemma use_limit_exhaustion_witness :
  replay scheme_wildcard plain 100 Demo.options Demo.request 2 Demo.rules
  = ([Returned {| url := "https://example.com/foo?x=1";
                  ssl_context :=
                    client_context_no_verify (verbatim (Some "modern")) |};
      Returned {| url := "https://example.com/foo?x=1";
                  ssl_context :=
                    client_context_no_verify (verbatim (Some "modern")) |}],
     [("a", Demo.lapsed); ("c", Demo.other)]).
Proof.
  destruct (use_limit_exhaustion scheme_wildcard plain 100 Demo.options
              Demo.request "https://example.com/foo?x=1" "b" (Demo.good 2)
              [("a", Demo.lapsed)] [("c", Demo.other)] 1%nat
              demo_rules_wf eq_refl eq_refl eq_refl eq_refl)
    as [Hserved _].
  exact Hserved.
Defined.

(** Created at time 1000 for 60 seconds and one use, without
    verification: a request at time 1060 is still served, by a context
    that does not verify, and the registry is as before the call. *)
Lemma created_rule_lifetime_witness :
  _get_proxied_url scheme_wildcard plain (steady 1060) Demo.no_options
    Demo.request
    (create_proxied_url "7f3c" 1000 Demo.door_call [("c", Demo.other)])
  = (Returned {| url := "https://example.com/foo?x=1";
                 ssl_context :=
                   client_context_no_verify (verbatim (Some "modern")) |},
     [("c", Demo.other)]).
Proof.
  assert (Hnew : ~ In "door" (PyDict.keys [("c", Demo.other)])).
  { simpl. intuition discriminate. }
  assert (Httl : 0 < call_time_to_live Demo.door_call) by (simpl; lia).
  assert (Hnow : 0 <= 1000) by lia.
  destruct (created_rule_lifetime scheme_wildcard plain "7f3c" 1000 1060
              Demo.door_call Demo.no_options Demo.request
              "https://example.com/foo?x=1" [("c", Demo.other)]
              eq_refl Hnew eq_refl eq_refl eq_refl Httl Hnow)
    as [Hlive _].
  apply Hlive. simpl. lia.
Defined.

Lemma created_rule_authorizes_witness :
  exists p,
    fst (_get_proxied_url scheme_wildcard plain (steady 1030) Demo.options
           Demo.request
           (create_proxied_url "7f3c" 1000 Demo.unlimited_call Demo.rules))
    = Returned p.
Proof.
  assert (Hlive : call_time_to_live Demo.unlimited_call = 0
                  \/ 1030 <= 1000 + call_time_to_live Demo.unlimited_call).
  { right. simpl. lia. }
  exact (created_rule_authorizes scheme_wildcard plain "7f3c" 1000 1030
           Demo.unlimited_call Demo.options Demo.request
           "https://example.com/foo?x=1" Demo.rules eq_refl
           (demo_rules_answered _) eq_refl Hlive).
Defined.

(** Authorized at time 100, hence at time 40, when even the rule ["a"]
    has not lapsed. *)
Lemma authorized_earlier_witness :
  exists p',
    fst (_get_proxied_url scheme_wildcard plain (steady 40) Demo.options
           Demo.request Demo.rules)
    = Returned p'.
Proof.
  assert (Hle : 40 <= 100) by lia.
  exact (authorized_earlier scheme_wildcard plain 100 40 Demo.options
           Demo.request Demo.rules
           {| url := "https://example.com/foo?x=1";
              ssl_context :=
                client_context_no_verify (verbatim (Some "modern")) |}
           Hle eq_refl).
Defined.

(** With [dynamic_urls] off the calls of [Demo.history] are not served. *)
Lemma dynamic_urls_disabled_witness :
  run scheme_wildcard plain Demo.no_options Demo.history = PyDict.empty.
Proof.
  destruct (dynamic_urls_disabled scheme_wildcard plain Demo.no_options
              Demo.history eq_refl)
    as [Hempty _].
  exact Hempty.
Defined.

(** The malformed rule stands before the unlimited one: the request ends
    in the matcher's exception. *)
Lemma malformed_pattern_blocks_witness :
  _get_proxied_url scheme_wildcard plain (steady 1001) Demo.options
                   Demo.request
                   (run scheme_wildcard plain Demo.options
                        Demo.blocked_history)
  = (Raised BadMatchPattern,
     run scheme_wildcard plain Demo.options Demo.blocked_history).
Proof.
  destruct (malformed_pattern_blocks scheme_wildcard plain 1001 Demo.options
              Demo.request "https://example.com/foo?x=1"
              (run scheme_wildcard plain Demo.options Demo.blocked_history)
              eq_refl)
    as [Hrule _].
  exact (Hrule [] "bad" Demo.malformed
               [("cam",
                 {| url_pattern := "https://example.com/*";
                    ssl_verification := true;
                    ssl_ciphers := Some "default";
                    open_limit := 0;
                    expiration := 1060 |})]
               eq_refl eq_refl eq_refl).
Defined.
